(** * Trading_Bot: order validation and strategy execution

    A shallow embedding of the validation and strategy modules of the
    repository (src/utils/validation.py, src/utils/binance_client.py,
    src/market_orders.py, src/advanced/{stop_limit,oco,twap,grid_strategy}.py)
    and the properties of the order validator, the exchange-information
    cache and the strategies.

    Python floats are IEEE-754 binary64 numbers: they are modelled by
    [spec_float] with the binary64 parameters, so that every comparison,
    subtraction, division and modulus below is the one the interpreter
    computes.  Python integers are [Z].  The exchange and the logger are
    modelled by a trace of events. *)

From Stdlib Require Import ZArith List String Bool Lia.
From Stdlib Require Import Floats.SpecFloat.
Import ListNotations.
Open Scope string_scope.
Open Scope list_scope.
Open Scope Z_scope.

(* ================================================================= *)
(** ** Python floats *)

Definition float : Type := spec_float.

Module PyFloat.

Definition prec : Z := 53.
Definition emax : Z := 1024.

Definition add : float -> float -> float := SFadd prec emax.
Definition sub : float -> float -> float := SFsub prec emax.
Definition mul : float -> float -> float := SFmul prec emax.
Definition ieee_div : float -> float -> float := SFdiv prec emax.

(** [x < y], [x > y] and [x == y] on floats (all false on NaN). *)
Definition ltb : float -> float -> bool := SFltb.
Definition gtb (x y : float) : bool := SFltb y x.
Definition eqb : float -> float -> bool := SFeqb.
Definition leb : float -> float -> bool := SFleb.

Definition is_nan (x : float) : bool :=
  match x with S754_nan => true | _ => false end.

Definition zero : float := S754_zero false.

Definition is_zero (x : float) : bool :=
  match x with S754_zero _ => true | _ => false end.

(** Truth value of a float: [bool(x)] is [x != 0.0]; NaN is true. *)
Definition truthy (x : float) : bool := negb (is_zero x).

(** [x != 0] where [0] is the integer literal. *)
Definition ne0 (x : float) : bool := negb (eqb x zero).

Definition sign_bit (x : float) : bool :=
  match x with
  | S754_zero s | S754_infinity s | S754_finite s _ _ => s
  | S754_nan => false
  end.

(** Conversion of an integer, rounded to nearest even; the caller checks
    for overflow. *)
Definition of_Z (n : Z) : float := binary_normalize prec emax n 0 false.

(** The float nearest to the rational [(-1)^neg * n / d]. *)
Definition of_ratio (neg : bool) (n d : positive) : float :=
  ieee_div (S754_finite neg n 0) (S754_finite false d 0).

(** C's [fmod]: the exact remainder of the truncated division, with the
    sign of the dividend. *)
Definition c_fmod (x y : float) : float :=
  match x, y with
  | S754_nan, _ | _, S754_nan => S754_nan
  | S754_infinity _, _ => S754_nan
  | _, S754_zero _ => S754_nan
  | _, S754_infinity _ => x
  | S754_zero _, _ => x
  | S754_finite sx mx ex, S754_finite _ my ey =>
      let ez := Z.min ex ey in
      let r := Z.rem (Z.shiftl (Zpos mx) (ex - ez))
                     (Z.shiftl (Zpos my) (ey - ez)) in
      binary_normalize prec emax (cond_Zopp sx r) ez sx
  end.

(** The interpreter's [float_rem] after its division-by-zero test: the
    remainder takes the sign of the divisor. *)
Definition rem (x y : float) : float :=
  let m := c_fmod x y in
  if truthy m then
    if xorb (ltb y zero) (ltb m zero) then add m y else m
  else S754_zero (sign_bit y).

End PyFloat.

(* ================================================================= *)
(** ** Data of the exchange *)

(** A decimal string of the exchange's JSON ("0.001", "100000"): the
    number [(-1)^dec_neg * dec_coeff / 10^dec_scale]. *)
Record decimal := Decimal {
  dec_neg : bool;
  dec_coeff : N;
  dec_scale : nat
}.

(** [float(s)] for a decimal string [s]: the nearest binary64 number. *)
Definition float_of_decimal (d : decimal) : float :=
  match dec_coeff d with
  | N0 => S754_zero (dec_neg d)
  | Npos n => PyFloat.of_ratio (dec_neg d) n (Z.to_pos (10 ^ Z.of_nat (dec_scale d)))
  end.

(** One entry of a symbol's ['filters'] list: a dictionary with its
    ['filterType'] and its other keys, whose values are decimal strings. *)
Record filter := Filter {
  filterType : string;
  fields : list (string * decimal)
}.

(** One entry of the ['symbols'] list of the exchange information. *)
Record symbol_info := SymbolInfo {
  symbol : string;
  filters : list filter
}.

(** The dictionary returned by [futures_exchange_info()], by its
    ['symbols'] list. *)
Definition exchange_info := list symbol_info.

(** The keyword arguments of one [futures_create_order] call. *)
Record order := Order {
  o_symbol : string;
  o_side : string;
  o_type : string;
  o_quantity : float;
  o_price : option float;
  o_stopPrice : option float;
  o_timeInForce : option string
}.

(** The order dictionary the exchange answers with. *)
Record response := Response {
  orderId : Z;
  status : string
}.

(** Constants of [binance.enums]. *)
Definition FUTURE_ORDER_TYPE_MARKET : string := "MARKET".
Definition FUTURE_ORDER_TYPE_LIMIT : string := "LIMIT".
Definition FUTURE_ORDER_TYPE_STOP : string := "STOP".

(** Exceptions derived from [Exception].  [SystemExit] is not one of
    them and is a separate outcome below. *)
Inductive exn :=
| BinanceAPIException (status_code : Z) (message : string)
| BinanceRequestException (status_code : Z) (message : string)
| ZeroDivisionError
| OverflowError
| KeyError (key : string)
| AttributeError (name : string)
| OtherException (message : string).

(* ================================================================= *)
(** ** Log records and events *)

Inductive level := INFO | WARNING | ERROR.

(** The messages the modules log, one constructor per message text, with
    the values formatted into it. *)
Inductive log_msg :=
(* validation.py *)
| InvalidSymbol (sym : string)
| MissingFilters (sym : string)
| InvalidQuantity (quantity : float) (sym : string) (min_qty max_qty : float)
| InvalidQuantityStep (sym : string) (step_size : float)
| InvalidPrice (price : float) (sym : string) (min_price max_price : float)
| InvalidPriceTick (sym : string) (tick_size : float)
(* binance_client.py *)
| BinanceApiError (status_code : Z) (message : string)
| UnexpectedError (e : exn)
(* market_orders.py, limit_orders.py, stop_limit.py *)
| ValidationFailedAborting
| MarketOrderPlaced (details : response)
| LimitOrderPlaced (details : response)
| StopLimitOrderPlaced (details : response)
(* oco.py *)
| OcoValidationFailedAborting
| OcoOrdersPlaced (tp_order sl_order : response)
(* twap.py *)
| TwapDurationTooShort
| TwapStarting (sym : string) (num_intervals : Z) (quantity_per_order : float)
               (interval_seconds : Z)
| TwapValidationFailedAborting
| TwapOrderPlaced (i num_intervals : Z) (details : response)
| TwapSubOrderFailedContinuing
(* grid_strategy.py *)
| GridLevelsTooFew
| GridValidationFailedAborting (order_price : float)
| GridOrderPlaced (side : string) (quantity order_price : float) (details : response)
| GridOrderFailedContinuing (order_price : float)
| GridOrdersPlaced (orders_count : nat).

(** What one run of the program does to the outside, in order.
    [EValidate] is a ghost event: it marks the end of a [validate_input]
    call with its arguments and its result ([None] when the call raised
    or exited). *)
Inductive event :=
| EFetch (r : exn + exchange_info)
| ESubmit (o : order) (r : exn + response)
| ELog (l : level) (m : log_msg)
| ESleep (seconds : Z)
| EValidate (sym : string) (quantity : float) (price : option float)
            (result : option bool).

(* ================================================================= *)
(** ** The client, the process state and the monad of the program *)

(** The configured Binance client ([BinanceClient.get_client()]).  What
    the exchange answers may depend on everything that happened before,
    so each call receives the events so far; a call either returns or
    raises an exception.  [raw_has_handle_error] tells whether this
    object has a [handle_error] method (the tests' [MockClient] has one,
    which does nothing). *)
Record client := Client {
  futures_exchange_info : list event -> exn + exchange_info;
  futures_create_order : list event -> order -> exn + response;
  raw_has_handle_error : bool
}.

(** The class attributes of [ExchangeInfo], which live as long as the
    process: [_instance] ([true] when it is not [None]) and [_info]. *)
Record cls_state := ClsState {
  _instance : bool;
  _info : option exchange_info
}.

(** The state of a process that has not yet built an [ExchangeInfo]. *)
Definition fresh : cls_state := ClsState false None.

(** A call returns a value, raises an exception, or exits the process
    ([sys.exit], which [except Exception] does not catch). *)
Inductive outcome (A : Type) :=
| Return (a : A)
| Raise (e : exn)
| Exit (code : Z).
Arguments Return {A} a.
Arguments Raise {A} e.
Arguments Exit {A} code.

(** A computation reads the events so far and the class state, and gives
    its outcome, the new class state and the events it adds. *)
Definition M (A : Type) : Type :=
  list event -> cls_state -> outcome A * cls_state * list event.

Definition outc {A} (r : outcome A * cls_state * list event) : outcome A := fst (fst r).
Definition cls_of {A} (r : outcome A * cls_state * list event) : cls_state := snd (fst r).
Definition events {A} (r : outcome A * cls_state * list event) : list event := snd r.

Definition ret {A} (a : A) : M A := fun _ s => (Return a, s, []).

Definition raise {A} (e : exn) : M A := fun _ s => (Raise e, s, []).

Definition sys_exit {A} (code : Z) : M A := fun _ s => (Exit code, s, []).

Definition bind {A B} (m : M A) (k : A -> M B) : M B :=
  fun h s =>
    match m h s with
    | (Return a, s1, ev1) =>
        let r := k a (h ++ ev1) s1 in (outc r, cls_of r, ev1 ++ events r)
    | (Raise e, s1, ev1) => (Raise e, s1, ev1)
    | (Exit c, s1, ev1) => (Exit c, s1, ev1)
    end.

(** [try: m  except Exception as e: handler e]. *)
Definition try_except {A} (m : M A) (handler : exn -> M A) : M A :=
  fun h s =>
    match m h s with
    | (Raise e, s1, ev1) =>
        let r := handler e (h ++ ev1) s1 in (outc r, cls_of r, ev1 ++ events r)
    | r => r
    end.

Definition emit (e : event) : M unit := fun _ s => (Return tt, s, [e]).

Definition get_cls : M cls_state := fun _ s => (Return s, s, []).

Definition put_cls (s : cls_state) : M unit := fun _ _ => (Return tt, s, []).

Declare Scope py_scope.
Delimit Scope py_scope with py.
Notation "x <- m ;; k" := (bind m (fun x => k))
  (at level 61, m at next level, right associativity) : py_scope.
Notation "m ;; k" := (bind m (fun _ => k))
  (at level 61, right associativity) : py_scope.
Open Scope py_scope.

Definition log (l : level) (m : log_msg) : M unit := emit (ELog l m).

(** [time.sleep(seconds)]. *)
Definition sleep (seconds : Z) : M unit := emit (ESleep seconds).

(** [float(n)] for an integer [n], as it happens in [x / n] and [n * x]. *)
Definition float_of_int (n : Z) : M float :=
  match PyFloat.of_Z n with
  | S754_infinity _ => raise OverflowError
  | f => ret f
  end.

(** [x / y] on floats. *)
Definition float_div (x y : float) : M float :=
  if PyFloat.is_zero y then raise ZeroDivisionError else ret (PyFloat.ieee_div x y).

(** [x % y] on floats. *)
Definition float_mod (x y : float) : M float :=
  if PyFloat.is_zero y then raise ZeroDivisionError else ret (PyFloat.rem x y).

(** [a // b] on integers. *)
Definition int_floordiv (a b : Z) : M Z :=
  if b =? 0 then raise ZeroDivisionError else ret (a / b).

Section Program.

Variable c : client.

(** [client.get_client().futures_exchange_info()]. *)
Definition call_futures_exchange_info : M exchange_info :=
  fun h s =>
    match futures_exchange_info c h with
    | inl e => (Raise e, s, [EFetch (inl e)])
    | inr i => (Return i, s, [EFetch (inr i)])
    end.

(** [client.get_client().futures_create_order(...)]. *)
Definition call_futures_create_order (o : order) : M response :=
  fun h s =>
    match futures_create_order c h o with
    | inl e => (Raise e, s, [ESubmit o (inl e)])
    | inr r => (Return r, s, [ESubmit o (inr r)])
    end.

(** [BinanceClient.handle_error]. *)
Definition handle_error (e : exn) : M unit :=
  match e with
  | BinanceAPIException code msg
  | BinanceRequestException code msg => log ERROR (BinanceApiError code msg)
  | _ => log ERROR (UnexpectedError e)
  end.

(** [handle_error] called on the object [get_client()] returns. *)
Definition raw_handle_error (e : exn) : M unit :=
  if raw_has_handle_error c then ret tt
  else raise (AttributeError "handle_error").

(* --------------------------------------------------------------- *)
(** *** validation.py *)

(** [ExchangeInfo(client.get_client())], that is [ExchangeInfo.__new__]. *)
Definition ExchangeInfo : M unit :=
  s <- get_cls ;;
  if negb (_instance s) then
    put_cls (ClsState true (_info s)) ;;
    try_except
      (i <- call_futures_exchange_info ;;
       s' <- get_cls ;;
       put_cls (ClsState (_instance s') (Some i)))
      (fun e => raw_handle_error e ;; sys_exit 1)
  else ret tt.

(** [ExchangeInfo.get_symbol_info]. *)
Definition get_symbol_info (s : cls_state) (sym : string) : option symbol_info :=
  match _info s with
  | Some symbols => find (fun si => String.eqb (symbol si) sym) symbols
  | None => None
  end.

(** [next((f for f in filters if f['filterType'] == t), None)]. *)
Definition find_filter (t : string) (fs : list filter) : option filter :=
  find (fun f => String.eqb (filterType f) t) fs.

(** [float(f[key])]. *)
Definition float_field (f : filter) (key : string) : M float :=
  match find (fun kv => String.eqb (fst kv) key) (fields f) with
  | Some kv => ret (float_of_decimal (snd kv))
  | None => raise (KeyError key)
  end.

(** The truth value of the [price] argument: [None] and zero are false. *)
Definition price_given (price : option float) : option float :=
  match price with
  | Some p => if PyFloat.truthy p then Some p else None
  | None => None
  end.

(** Lines 47 to 98 of [validate_input]: the checks on the symbol
    information that was looked up. *)
Definition validate_checks (si : option symbol_info) (sym : string)
    (quantity : float) (price : option float) : M bool :=
  match si with
  | None => log ERROR (InvalidSymbol sym) ;; ret false
  | Some si =>
    match find_filter "PRICE_FILTER" (filters si),
          find_filter "LOT_SIZE" (filters si) with
    | Some price_filter, Some lot_size_filter =>
      min_qty <- float_field lot_size_filter "minQty" ;;
      max_qty <- float_field lot_size_filter "maxQty" ;;
      step_size <- float_field lot_size_filter "stepSize" ;;
      if PyFloat.ltb quantity min_qty || PyFloat.gtb quantity max_qty then
        log ERROR (InvalidQuantity quantity sym min_qty max_qty) ;; ret false
      else
        r <- float_mod (PyFloat.sub quantity min_qty) step_size ;;
        if PyFloat.ne0 r then
          log ERROR (InvalidQuantityStep sym step_size) ;; ret false
        else
          match price_given price with
          | Some p =>
            min_price <- float_field price_filter "minPrice" ;;
            max_price <- float_field price_filter "maxPrice" ;;
            tick_size <- float_field price_filter "tickSize" ;;
            if PyFloat.ltb p min_price || PyFloat.gtb p max_price then
              log ERROR (InvalidPrice p sym min_price max_price) ;; ret false
            else
              r' <- float_mod (PyFloat.sub p min_price) tick_size ;;
              if PyFloat.ne0 r' then
                log ERROR (InvalidPriceTick sym tick_size) ;; ret false
              else ret true
          | None => ret true
          end
    | _, _ => log ERROR (MissingFilters sym) ;; ret false
    end
  end.

(** Lines 44 and 45 of [validate_input]:
    [ExchangeInfo(client.get_client()).get_symbol_info(symbol)]. *)
Definition lookup_symbol (sym : string) : M (option symbol_info) :=
  ExchangeInfo ;;
  s <- get_cls ;;
  ret (get_symbol_info s sym).

(** The body of [validate_input]. *)
Definition validate_input_body (sym : string) (quantity : float)
    (price : option float) : M bool :=
  si <- lookup_symbol sym ;;
  validate_checks si sym quantity price.

Definition result_of (o : outcome bool) : option bool :=
  match o with Return b => Some b | _ => None end.

(** [validate_input(client, symbol, quantity, price)]: the body, and the
    ghost event that records how the call ended. *)
Definition validate_input (sym : string) (quantity : float)
    (price : option float) : M bool :=
  fun h s =>
    let r := validate_input_body sym quantity price h s in
    (outc r, cls_of r, events r ++ [EValidate sym quantity price (result_of (outc r))]).

(* --------------------------------------------------------------- *)
(** *** market_orders.py *)

Definition place_market_order (sym side : string) (quantity : float)
    : M (option response) :=
  try_except
    (ok <- validate_input sym quantity None ;;
     if negb ok then
       log ERROR ValidationFailedAborting ;; ret None
     else
       order <- call_futures_create_order
                  (Order sym side FUTURE_ORDER_TYPE_MARKET quantity None None None) ;;
       log INFO (MarketOrderPlaced order) ;;
       ret (Some order))
    (fun e => handle_error e ;; ret None).

(* --------------------------------------------------------------- *)
(** *** limit_orders.py *)

(** Modelled from the spec: [place_limit_order] of limit_orders.py, which
    is not among the sources.  One order of type LIMIT with a required
    price and a configurable time in force; as for a market order, it
    aborts when validation fails and otherwise makes a single gateway
    call and returns its result, a gateway error being logged and
    returned to the caller. *)
Definition place_limit_order (sym side : string) (quantity price : float)
    (time_in_force : string) : M (option (exn + response)) :=
  ok <- validate_input sym quantity (Some price) ;;
  if negb ok then
    log ERROR ValidationFailedAborting ;; ret None
  else
    try_except
      (order <- call_futures_create_order
                  (Order sym side FUTURE_ORDER_TYPE_LIMIT quantity (Some price) None
                         (Some time_in_force)) ;;
       log INFO (LimitOrderPlaced order) ;;
       ret (Some (inr order)))
      (fun e => handle_error e ;; ret (Some (inl e))).

(* --------------------------------------------------------------- *)
(** *** advanced/stop_limit.py *)

Definition place_stop_limit_order (sym side : string)
    (quantity stop_price limit_price : float) : M (option response) :=
  try_except
    (ok <- validate_input sym quantity (Some limit_price) ;;
     if negb ok then
       log ERROR ValidationFailedAborting ;; ret None
     else
       order <- call_futures_create_order
                  (Order sym side FUTURE_ORDER_TYPE_STOP quantity (Some limit_price)
                         (Some stop_price) (Some "GTC")) ;;
       log INFO (StopLimitOrderPlaced order) ;;
       ret (Some order))
    (fun e => handle_error e ;; ret None).

(* --------------------------------------------------------------- *)
(** *** advanced/oco.py *)

(** ["SELL" if side == "BUY" else "BUY"]. *)
Definition opposite_side (side : string) : string :=
  if String.eqb side "BUY" then "SELL" else "BUY".

Definition take_profit_order (sym side : string) (quantity take_profit : float) : order :=
  Order sym (opposite_side side) "TAKE_PROFIT" quantity None (Some take_profit) None.

Definition stop_loss_order (sym side : string) (quantity stop_loss : float) : order :=
  Order sym (opposite_side side) "STOP" quantity None (Some stop_loss) None.

(** [not validate_input(.., take_profit) or not validate_input(.., stop_loss)]:
    the second call is made only when the first returned [True]. *)
Definition oco_validation_failed (sym : string)
    (quantity take_profit stop_loss : float) : M bool :=
  ok_tp <- validate_input sym quantity (Some take_profit) ;;
  if negb ok_tp then ret true
  else
    ok_sl <- validate_input sym quantity (Some stop_loss) ;;
    ret (negb ok_sl).

Definition place_oco_order (sym side : string)
    (quantity take_profit stop_loss : float) : M (option (response * response)) :=
  try_except
    (failed <- oco_validation_failed sym quantity take_profit stop_loss ;;
     if failed then
       log ERROR OcoValidationFailedAborting ;; ret None
     else
       tp_order <- call_futures_create_order
                     (take_profit_order sym side quantity take_profit) ;;
       sl_order <- call_futures_create_order
                     (stop_loss_order sym side quantity stop_loss) ;;
       log INFO (OcoOrdersPlaced tp_order sl_order) ;;
       ret (Some (tp_order, sl_order)))
    (fun e => handle_error e ;; ret None).

(* --------------------------------------------------------------- *)
(** *** advanced/twap.py *)

(** [range(n)]. *)
Definition range (n : Z) : list Z := map Z.of_nat (seq 0 (Z.to_nat n)).

Definition twap_order (sym side : string) (quantity_per_order : float) : order :=
  Order sym side FUTURE_ORDER_TYPE_MARKET quantity_per_order None None None.

(** The [for] loop of [place_twap_order] over the remaining indices; a
    [return] inside the loop ends it. *)
Fixpoint twap_loop (sym side : string) (quantity_per_order : float)
    (num_intervals interval_seconds : Z) (indices : list Z) : M unit :=
  match indices with
  | [] => ret tt
  | i :: rest =>
    ok <- validate_input sym quantity_per_order None ;;
    if negb ok then
      log ERROR TwapValidationFailedAborting ;; ret tt
    else
      try_except
        (order <- call_futures_create_order (twap_order sym side quantity_per_order) ;;
         log INFO (TwapOrderPlaced (i + 1) num_intervals order))
        (fun e => handle_error e ;; log WARNING TwapSubOrderFailedContinuing) ;;
      (if i <? num_intervals - 1 then sleep interval_seconds else ret tt) ;;
      twap_loop sym side quantity_per_order num_intervals interval_seconds rest
  end.

(** [total_quantity / num_intervals]. *)
Definition twap_quantity_per_order (total_quantity : float) (num_intervals : Z)
    : M float :=
  n <- float_of_int num_intervals ;;
  float_div total_quantity n.

Definition place_twap_order (sym side : string) (total_quantity : float)
    (duration_minutes interval_seconds : Z) : M unit :=
  try_except
    (num_intervals <- int_floordiv (duration_minutes * 60) interval_seconds ;;
     if num_intervals =? 0 then
       log ERROR TwapDurationTooShort ;; ret tt
     else
       quantity_per_order <- twap_quantity_per_order total_quantity num_intervals ;;
       log INFO (TwapStarting sym num_intervals quantity_per_order interval_seconds) ;;
       twap_loop sym side quantity_per_order num_intervals interval_seconds
                 (range num_intervals))
    (fun e => handle_error e ;; ret tt).

(* --------------------------------------------------------------- *)
(** *** advanced/grid_strategy.py *)

(** [lower_bound + i * price_step]. *)
Definition grid_order_price (lower_bound price_step : float) (i : Z) : M float :=
  fi <- float_of_int i ;;
  ret (PyFloat.add lower_bound (PyFloat.mul fi price_step)).

(** ["BUY" if order_price < (lower_bound + upper_bound) / 2 else "SELL"]. *)
Definition grid_order_side (lower_bound upper_bound order_price : float) : M string :=
  two <- float_of_int 2 ;;
  mid <- float_div (PyFloat.add lower_bound upper_bound) two ;;
  ret (if PyFloat.ltb order_price mid then "BUY" else "SELL").

Definition grid_order (sym side : string) (quantity_per_level order_price : float)
    : order :=
  Order sym side FUTURE_ORDER_TYPE_LIMIT quantity_per_level (Some order_price) None
        (Some "GTC").

(** The [for] loop of [place_grid_orders] over the remaining levels, with
    the list [orders] so far; [None] when the loop was left by [return]. *)
Fixpoint grid_loop (sym : string) (lower_bound upper_bound price_step
    quantity_per_level : float) (levels : list Z) (orders : list response)
    : M (option (list response)) :=
  match levels with
  | [] => ret (Some orders)
  | i :: rest =>
    order_price <- grid_order_price lower_bound price_step i ;;
    order_side <- grid_order_side lower_bound upper_bound order_price ;;
    ok <- validate_input sym quantity_per_level (Some order_price) ;;
    if negb ok then
      log ERROR (GridValidationFailedAborting order_price) ;; ret None
    else
      orders' <- try_except
        (order <- call_futures_create_order
                    (grid_order sym order_side quantity_per_level order_price) ;;
         log INFO (GridOrderPlaced order_side quantity_per_level order_price order) ;;
         ret (orders ++ [order]))
        (fun e => handle_error e ;;
                  log WARNING (GridOrderFailedContinuing order_price) ;;
                  ret orders) ;;
      grid_loop sym lower_bound upper_bound price_step quantity_per_level rest orders'
  end.

(** [(upper_bound - lower_bound) / (num_levels - 1)]. *)
Definition grid_price_step (lower_bound upper_bound : float) (num_levels : Z) : M float :=
  n <- float_of_int (num_levels - 1) ;;
  float_div (PyFloat.sub upper_bound lower_bound) n.

Definition place_grid_orders (sym : string) (lower_bound upper_bound : float)
    (num_levels : Z) (quantity_per_level : float) : M (option (list response)) :=
  try_except
    (if num_levels <=? 1 then
       log ERROR GridLevelsTooFew ;; ret None
     else
       price_step <- grid_price_step lower_bound upper_bound num_levels ;;
       r <- grid_loop sym lower_bound upper_bound price_step quantity_per_level
                      (range num_levels) [] ;;
       match r with
       | None => ret None
       | Some orders =>
           log INFO (GridOrdersPlaced (List.length orders)) ;; ret (Some orders)
       end)
    (fun e => handle_error e ;; ret None).

(* --------------------------------------------------------------- *)
(** *** Strategy invocations *)

Inductive invocation :=
| Market (sym side : string) (quantity : float)
| Limit (sym side : string) (quantity price : float) (time_in_force : string)
| StopLimit (sym side : string) (quantity stop_price limit_price : float)
| Bracket (sym side : string) (quantity take_profit stop_loss : float)
| Twap (sym side : string) (total_quantity : float)
       (duration_minutes interval_seconds : Z)
| Grid (sym : string) (lower_bound upper_bound : float) (num_levels : Z)
       (quantity_per_level : float).

(** One strategy call, its return value dropped. *)
Definition invoke (i : invocation) : M unit :=
  match i with
  | Market sym side q => place_market_order sym side q ;; ret tt
  | Limit sym side q p tif => place_limit_order sym side q p tif ;; ret tt
  | StopLimit sym side q sp lp => place_stop_limit_order sym side q sp lp ;; ret tt
  | Bracket sym side q tp sl => place_oco_order sym side q tp sl ;; ret tt
  | Twap sym side q d i => place_twap_order sym side q d i
  | Grid sym lo hi n q => place_grid_orders sym lo hi n q ;; ret tt
  end.

End Program.

(* ================================================================= *)
(** ** Reading a trace *)

(** The gateway calls of a trace, in order. *)
Fixpoint submitted (evs : list event) : list (order * (exn + response)) :=
  match evs with
  | [] => []
  | ESubmit o r :: tl => (o, r) :: submitted tl
  | _ :: tl => submitted tl
  end.

(** The number of fetches of the exchange information in a trace. *)
Fixpoint fetches (evs : list event) : nat :=
  match evs with
  | [] => 0%nat
  | EFetch _ :: tl => S (fetches tl)
  | _ :: tl => fetches tl
  end.

(** The log records of a trace, in order. *)
Fixpoint logged (evs : list event) : list (level * log_msg) :=
  match evs with
  | [] => []
  | ELog l m :: tl => (l, m) :: logged tl
  | _ :: tl => logged tl
  end.

(** The ended [validate_input] calls of a trace, in order. *)
Fixpoint validations (evs : list event)
    : list (string * float * option float * option bool) :=
  match evs with
  | [] => []
  | EValidate sym q p r :: tl => (sym, q, p, r) :: validations tl
  | _ :: tl => validations tl
  end.

(* ================================================================= *)
(** ** Fixtures *)

(** A decimal with [scale] digits after the point. *)
Definition dec (coeff : N) (scale : nat) : decimal := Decimal false coeff scale.

(** The exchange information of tests/test_validation.py ([MockClient]). *)
Definition mock_exchange_info : exchange_info :=
  [ SymbolInfo "BTCUSDT"
      [ Filter "PRICE_FILTER"
          [("minPrice", dec 1 2); ("maxPrice", dec 100000 0); ("tickSize", dec 1 2)];
        Filter "LOT_SIZE"
          [("minQty", dec 1 3); ("maxQty", dec 1000 0); ("stepSize", dec 1 3)] ] ].

(** An exchange with unit steps, on which the float arithmetic is exact. *)
Definition unit_exchange_info : exchange_info :=
  [ SymbolInfo "BTCUSDT"
      [ Filter "PRICE_FILTER"
          [("minPrice", dec 1 0); ("maxPrice", dec 100000 0); ("tickSize", dec 1 0)];
        Filter "LOT_SIZE"
          [("minQty", dec 1 0); ("maxQty", dec 1000 0); ("stepSize", dec 1 0)] ] ].

Definition filled : response := Response 456 "NEW".

(** A client whose exchange answers every fetch with [info] and accepts
    every order. *)
Definition accepting_client (info : exchange_info) : client :=
  Client (fun _ => inr info) (fun _ _ => inr filled) true.


(** Float literals. *)
Definition fz (n : Z) : float := PyFloat.of_Z n.
Definition fd (coeff : N) (scale : nat) : float := float_of_decimal (dec coeff scale).

(* ================================================================= *)
(** ** Properties of computations and traces *)

(** The outcome and the events of a computation that depends neither on
    the history nor on the class state. *)
Definition eval {A} (m : M A) : outcome A := outc (m [] fresh).
Definition eval_events {A} (m : M A) : list event := events (m [] fresh).

Definition is_log (e : event) : Prop :=
  match e with ELog _ _ => True | _ => False end.

(** Events that are neither gateway calls nor ends of validations. *)
Definition internal (e : event) : Prop :=
  match e with EFetch _ | ELog _ _ | ESleep _ => True | _ => False end.

(** A computation that only logs: it ignores the history, leaves the
    class state alone and emits log records only. *)
Definition constant {A} (m : M A) : Prop :=
  Forall is_log (eval_events m) /\
  forall h s, m h s = (eval m, s, eval_events m).

(** An order may go to the gateway after the events [seen] of the same
    invocation when [validate_input] has returned [True] for its symbol
    and quantity (and its price, if it has one), and no call of
    [validate_input] has ended otherwise. *)
Definition price_agrees (o : order) (p : option float) : Prop :=
  forall px, o_price o = Some px -> p = Some px.

Definition may_submit (seen : list event) (o : order) : Prop :=
  (exists p, In (EValidate (o_symbol o) (o_quantity o) p (Some true)) seen
             /\ price_agrees o p) /\
  (forall sym q p r, In (EValidate sym q p r) seen -> r = Some true).

(** Every gateway call of the trace is allowed by what precedes it. *)
Definition gated (evs : list event) : Prop :=
  forall pre o r post, evs = pre ++ ESubmit o r :: post -> may_submit pre o.

(** All validations of the trace returned [True]. *)
Definition all_passed (evs : list event) : Prop :=
  forall sym q p r, In (EValidate sym q p r) evs -> r = Some true.

(** Read from left to right after the events [seen]: every gateway call
    is allowed by what precedes it, and every [validate_input] call comes
    after passing validations only. *)
Fixpoint orderly_from (seen evs : list event) : Prop :=
  match evs with
  | [] => True
  | e :: tl =>
      match e with
      | ESubmit o _ => may_submit seen o
      | EValidate _ _ _ _ => all_passed seen
      | _ => True
      end
      /\ orderly_from (seen ++ [e]) tl
  end.


(** A computation that only computes: no event, no change of state. *)
Definition silent {A} (m : M A) : Prop := forall h s, m h s = (eval m, s, []).

(** What is left of the single fetch a process may make. *)
Definition budget (s : cls_state) : nat := if _instance s then 0%nat else 1%nat.

(** A computation that respects the cache: its fetches are paid from the
    budget, and once the cache is built it leaves the class state alone. *)
Definition thrifty {A} (m : M A) : Prop :=
  forall h s,
    (fetches (events (m h s)) + budget (cls_of (m h s)) <= budget s)%nat /\
    (_instance s = true -> cls_of (m h s) = s).

(** What a process may call, any number of times and in any order. *)
Inductive call :=
| CallStrategy (i : invocation)
| CallValidate (sym : string) (quantity : float) (price : option float)
| CallLookup (sym : string).

Definition run_call (c : client) (k : call) : M unit :=
  match k with
  | CallStrategy i => invoke c i
  | CallValidate sym q p => validate_input c sym q p ;; ret tt
  | CallLookup sym => lookup_symbol c sym ;; ret tt
  end.

(** The calls of a process, one after the other; the caller catches the
    exception of a call and goes on (as the HTTP front-end does), an exit
    ends the process. *)
Fixpoint process (c : client) (calls : list call) : M unit :=
  match calls with
  | [] => ret tt
  | k :: rest =>
      try_except (run_call c k) (fun _ => ret tt) ;;
      process c rest
  end.

(** [n] lookups of the same symbol in a row, with their results. *)
Fixpoint lookup_times (c : client) (sym : string) (n : nat)
    : M (list (option symbol_info)) :=
  match n with
  | O => ret []
  | S n' =>
      r <- lookup_symbol c sym ;;
      rs <- lookup_times c sym n' ;;
      ret (r :: rs)
  end.

(* ================================================================= *)
(** ** The validator in the words of the specification *)

(** The filters of one symbol, as numbers. *)
Record SymbolFilters := {
  minQty : float;
  maxQty : float;
  stepSize : float;
  minPrice : float;
  maxPrice : float;
  tickSize : float
}.

Inductive validation_error :=
| UnknownSymbol
| QuantityOutOfRange
| QuantityStepMismatch
| PriceOutOfRange
| PriceTickMismatch.

(** The value of a key of a filter, when the filter has it. *)
Definition field (f : filter) (key : string) : option float :=
  option_map (fun kv => float_of_decimal (snd kv))
             (find (fun kv => String.eqb (fst kv) key) (fields f)).

(** The filters record of a symbol that has a price filter and a lot-size
    filter with all their keys. *)
Definition symbol_filters (si : symbol_info) : option SymbolFilters :=
  match find_filter "PRICE_FILTER" (filters si),
        find_filter "LOT_SIZE" (filters si) with
  | Some pf, Some lf =>
      match field lf "minQty", field lf "maxQty", field lf "stepSize",
            field pf "minPrice", field pf "maxPrice", field pf "tickSize" with
      | Some a, Some b, Some c, Some d, Some e, Some f =>
          Some (Build_SymbolFilters a b c d e f)
      | _, _, _, _, _, _ => None
      end
  | _, _ => None
  end.

(** [x] lies within [[lo, hi]]. *)
Definition within (x lo hi : float) : bool :=
  PyFloat.leb lo x && PyFloat.leb x hi.

(** [(x - base) mod step == 0]. *)
Definition on_step (x base step : float) : bool :=
  negb (PyFloat.is_zero step)
  && PyFloat.eqb (PyFloat.rem (PyFloat.sub x base) step) PyFloat.zero.

(** [(x - base) mod step] is defined and is not 0. *)
Definition off_step (x base step : float) : bool :=
  negb (PyFloat.is_zero step)
  && PyFloat.ne0 (PyFloat.rem (PyFloat.sub x base) step).

(** Checks 2 to 5 of the validator, in order, stopping at the first
    failure; the price checks are made on a price that is present. *)
Definition spec_validate (F : SymbolFilters) (quantity : float)
    (price : option float) : option validation_error :=
  if negb (within quantity (minQty F) (maxQty F)) then Some QuantityOutOfRange
  else if negb (on_step quantity (minQty F) (stepSize F)) then
    Some QuantityStepMismatch
  else
    match price with
    | Some p =>
        if negb (within p (minPrice F) (maxPrice F)) then Some PriceOutOfRange
        else if negb (on_step p (minPrice F) (tickSize F)) then
          Some PriceTickMismatch
        else None
    | None => None
    end.


(** The error a log record of the validator stands for. *)
Definition error_of_record (m : log_msg) : option validation_error :=
  match m with
  | InvalidSymbol _ => Some UnknownSymbol
  | InvalidQuantity _ _ _ _ => Some QuantityOutOfRange
  | InvalidQuantityStep _ _ => Some QuantityStepMismatch
  | InvalidPrice _ _ _ _ => Some PriceOutOfRange
  | InvalidPriceTick _ _ => Some PriceTickMismatch
  | _ => None
  end.

(** The input violates the condition of error [e]. *)
Definition violates (si : option symbol_info) (F : SymbolFilters)
    (quantity : float) (price : option float) (e : validation_error) : Prop :=
  match e with
  | UnknownSymbol => si = None
  | QuantityOutOfRange => within quantity (minQty F) (maxQty F) = false
  | QuantityStepMismatch => off_step quantity (minQty F) (stepSize F) = true
  | PriceOutOfRange =>
      exists p, price = Some p /\ within p (minPrice F) (maxPrice F) = false
  | PriceTickMismatch =>
      exists p, price = Some p /\ off_step p (minPrice F) (tickSize F) = true
  end.

(** The input meets the condition of error [e]. *)
Definition meets (si : option symbol_info) (F : SymbolFilters)
    (quantity : float) (price : option float) (e : validation_error) : Prop :=
  match e with
  | UnknownSymbol => exists i, si = Some i /\ symbol_filters i = Some F
  | QuantityOutOfRange => within quantity (minQty F) (maxQty F) = true
  | QuantityStepMismatch => on_step quantity (minQty F) (stepSize F) = true
  | PriceOutOfRange =>
      forall p, price = Some p -> within p (minPrice F) (maxPrice F) = true
  | PriceTickMismatch =>
      forall p, price = Some p -> on_step p (minPrice F) (tickSize F) = true
  end.

(** The input violates the condition of [e] and no other. *)
Definition violates_only (si : option symbol_info) (F : SymbolFilters)
    (quantity : float) (price : option float) (e : validation_error) : Prop :=
  violates si F quantity price e /\
  forall e', e' <> e -> meets si F quantity price e'.

(** The filters of the symbol of tests/test_validation.py. *)
Definition mock_filters : SymbolFilters :=
  Build_SymbolFilters (fd 1 3) (fd 1000 0) (fd 1 3) (fd 1 2) (fd 100000 0) (fd 1 2).

(** The filters of the symbol of the exchange with unit steps. *)
Definition unit_filters : SymbolFilters :=
  Build_SymbolFilters (fd 1 0) (fd 1000 0) (fd 1 0) (fd 1 0) (fd 100000 0) (fd 1 0).

(** A call of [validate_input] made after the events [h] in the class
    state [s] has the exchange information at hand, cached before or
    fetched by this very call; and the class state it then works with. *)
Definition cache_ready (c : client) (h : list event) (s : cls_state) : Prop :=
  outc (ExchangeInfo c h s) = Return tt.

Definition cache_after (c : client) (h : list event) (s : cls_state) : cls_state :=
  cls_of (ExchangeInfo c h s).

(** A process whose cache holds [info]. *)
Definition cached (info : exchange_info) : cls_state := ClsState true (Some info).

(** Exact decimal arithmetic: [d] as an integer number of units
    [10^-k], for [k] not below the scale of [d]. *)
Definition scaled (d : decimal) (k : nat) : Z :=
  (if dec_neg d then -1 else 1) * Z.of_N (dec_coeff d)
  * 10 ^ Z.of_nat (k - dec_scale d).

(** [x - base] is an exact multiple of [step], in decimal arithmetic. *)
Definition decimal_multiple (x base step : decimal) : bool :=
  let k := Nat.max (dec_scale x) (Nat.max (dec_scale base) (dec_scale step)) in
  (scaled x k - scaled base k) mod scaled step k =? 0.








(** Clients of the examples, on the exchange with unit steps. *)
Definition unit_client : client := accepting_client unit_exchange_info.

(* ================================================================= *)
(** ** Further fixtures *)

(** A float that is a number: neither NaN nor an infinity. *)
Definition is_finite (x : float) : bool :=
  match x with S754_zero _ | S754_finite _ _ _ => true | _ => false end.

(** An exchange whose symbol has a lot-size filter only. *)
Definition lot_only_exchange_info : exchange_info :=
  [ SymbolInfo "BTCUSDT"
      [ Filter "LOT_SIZE"
          [("minQty", dec 1 0); ("maxQty", dec 1000 0); ("stepSize", dec 1 0)] ] ].

(** An exchange whose lot-size filter has no step size, and one whose
    price filter has no key at all. *)
Definition stepless_exchange_info : exchange_info :=
  [ SymbolInfo "BTCUSDT"
      [ Filter "PRICE_FILTER"
          [("minPrice", dec 1 0); ("maxPrice", dec 100000 0); ("tickSize", dec 1 0)];
        Filter "LOT_SIZE" [("minQty", dec 1 0); ("maxQty", dec 1000 0)] ] ].

Definition priceless_exchange_info : exchange_info :=
  [ SymbolInfo "BTCUSDT"
      [ Filter "PRICE_FILTER" [];
        Filter "LOT_SIZE"
          [("minQty", dec 1 0); ("maxQty", dec 1000 0); ("stepSize", dec 1 0)] ] ].

(** An exchange that disables the step rules with a step of 0. *)
Definition zero_step_exchange_info : exchange_info :=
  [ SymbolInfo "BTCUSDT"
      [ Filter "PRICE_FILTER"
          [("minPrice", dec 1 0); ("maxPrice", dec 100000 0); ("tickSize", dec 0 0)];
        Filter "LOT_SIZE"
          [("minQty", dec 1 0); ("maxQty", dec 1000 0); ("stepSize", dec 0 0)] ] ].

(* ================================================================= *)
(** ** Failure of the fetch *)

(** All validations of the trace returned [False]. *)
Definition refused (evs : list event) : Prop :=
  forall sym q p r, In (EValidate sym q p r) evs -> r = Some false.

(** The class state after a fetch that failed without ending the
    process: the instance exists and holds no information. *)
Definition failed_cache : cls_state := ClsState true None.

(** A computation that, run on the failed cache, leaves it as it is, has
    all its validations refused and does not exit. *)
Definition stuck {A} (m : M A) : Prop :=
  forall h,
    cls_of (m h failed_cache) = failed_cache /\
    refused (events (m h failed_cache)) /\
    forall x, outc (m h failed_cache) <> Exit x.

(** A computation that exits with code 1 only, and only on a fetch that
    failed in it, on a raw client that has [handle_error]. *)
Definition contained (c : client) {A} (m : M A) : Prop :=
  forall h s x, outc (m h s) = Exit x ->
    x = 1 /\ raw_has_handle_error c = true /\ _instance s = false /\
    exists e, In (EFetch (inl e)) (events (m h s)).

(** How a call that handles its exceptions ends when started in the
    class state [s]: it returns, or it exits as [contained] says. *)
Definition handled (c : client) (s : cls_state) {A}
    (r : outcome A * cls_state * list event) : Prop :=
  match outc r with
  | Return _ => True
  | Raise _ => False
  | Exit x =>
      x = 1 /\ raw_has_handle_error c = true /\ _instance s = false /\
      exists e, In (EFetch (inl e)) (events r)
  end.

(** A client whose exchange does not answer the fetch; the raw client
    has [handle_error] or not. *)
Definition unavailable : exn := BinanceAPIException 503 "Service Unavailable".
Definition failing_client (has_handle_error : bool) : client :=
  Client (fun _ => inl unavailable) (fun _ _ => inr filled) has_handle_error.

(* ================================================================= *)
(** ** The monad *)

Lemma bind_run {A B} (m : M A) (k : A -> M B) h s :
  bind m k h s =
  match outc (m h s) with
  | Return a =>
      let r := k a (h ++ events (m h s)) (cls_of (m h s)) in
      (outc r, cls_of r, events (m h s) ++ events r)
  | Raise e => (Raise e, cls_of (m h s), events (m h s))
  | Exit x => (Exit x, cls_of (m h s), events (m h s))
  end.
Proof.
  unfold bind. destruct (m h s) as [[[a|e|x] s1] ev]; reflexivity.
Qed.

Lemma try_except_run {A} (m : M A) (k : exn -> M A) h s :
  try_except m k h s =
  match outc (m h s) with
  | Raise e =>
      let r := k e (h ++ events (m h s)) (cls_of (m h s)) in
      (outc r, cls_of r, events (m h s) ++ events r)
  | _ => m h s
  end.
Proof.
  unfold try_except. destruct (m h s) as [[[a|e|x] s1] ev]; reflexivity.
Qed.

Lemma constant_ret {A} (a : A) : constant (ret a).
Proof. split; [constructor | reflexivity]. Qed.

Lemma constant_raise {A} (e : exn) : constant (@raise A e).
Proof. split; [constructor | reflexivity]. Qed.

Lemma constant_log l m : constant (log l m).
Proof. split; [repeat constructor | reflexivity]. Qed.

Lemma constant_bind {A B} (m : M A) (k : A -> M B) :
  constant m -> (forall a, constant (k a)) -> constant (bind m k).
Proof.
  intros [Lm Hm] Hk.
  assert (E : forall h s, bind m k h s =
            match eval m with
            | Return a => (eval (k a), s, eval_events m ++ eval_events (k a))
            | Raise e => (Raise e, s, eval_events m)
            | Exit x => (Exit x, s, eval_events m)
            end).
  { intros h s. rewrite bind_run, (Hm h s). unfold outc, cls_of, events; simpl.
    destruct (eval m) as [a|e|x]; try reflexivity.
    destruct (Hk a) as [_ Hka]. rewrite Hka. reflexivity. }
  split.
  - unfold eval_events. rewrite E. destruct (eval m) as [a|e|x]; simpl; auto.
    apply Forall_app; split; auto. apply (Hk a).
  - intros h s. unfold eval, eval_events. rewrite (E h s), (E [] fresh).
    destruct (eval m); reflexivity.
Qed.

Lemma constant_float_field f key : constant (float_field f key).
Proof.
  unfold float_field. destruct (find _ _); [apply constant_ret | apply constant_raise].
Qed.

Lemma constant_float_mod x y : constant (float_mod x y).
Proof.
  unfold float_mod. destruct (PyFloat.is_zero y); [apply constant_raise | apply constant_ret].
Qed.

Lemma constant_float_div x y : constant (float_div x y).
Proof.
  unfold float_div. destruct (PyFloat.is_zero y); [apply constant_raise | apply constant_ret].
Qed.

Lemma constant_float_of_int n : constant (float_of_int n).
Proof.
  unfold float_of_int.
  destruct (PyFloat.of_Z n); first [apply constant_raise | apply constant_ret].
Qed.

Ltac constant_step :=
  first
    [ apply constant_ret | apply constant_raise | apply constant_log
    | apply constant_float_field | apply constant_float_mod
    | apply constant_float_div | apply constant_float_of_int
    | apply constant_bind; [| intros ?]
    | match goal with
      | |- constant (match ?x with _ => _ end) => destruct x
      end ].

Lemma constant_validate_checks si sym q p : constant (validate_checks si sym q p).
Proof. unfold validate_checks. repeat constant_step. Qed.

Lemma constant_run {A} (m : M A) h s :
  constant m -> m h s = (eval m, s, eval_events m).
Proof. intros [_ H]; apply H. Qed.

(* ================================================================= *)
(** ** The exchange-information cache *)

Lemma ExchangeInfo_initialised c h s :
  _instance s = true -> ExchangeInfo c h s = (Return tt, s, []).
Proof.
  intros H. unfold ExchangeInfo. rewrite bind_run. simpl.
  rewrite H. reflexivity.
Qed.

Lemma ExchangeInfo_uninitialised c h s :
  _instance s = false ->
  ExchangeInfo c h s =
  match futures_exchange_info c h with
  | inr i => (Return tt, ClsState true (Some i), [EFetch (inr i)])
  | inl e => (if raw_has_handle_error c then Exit 1
              else Raise (AttributeError "handle_error"),
              ClsState true (_info s), [EFetch (inl e)])
  end.
Proof.
  intros H.
  unfold ExchangeInfo, bind, try_except, get_cls, put_cls,
    call_futures_exchange_info, raw_handle_error, ret, sys_exit, raise.
  simpl. rewrite H. simpl. rewrite !app_nil_r.
  destruct (futures_exchange_info c h) as [e|i]; simpl.
  - destruct (raw_has_handle_error c); reflexivity.
  - reflexivity.
Qed.

Lemma ExchangeInfo_sets_instance c h s :
  _instance (cls_of (ExchangeInfo c h s)) = true.
Proof.
  destruct (_instance s) eqn:H.
  - rewrite ExchangeInfo_initialised by assumption. exact H.
  - rewrite ExchangeInfo_uninitialised by assumption.
    destruct (futures_exchange_info c h); reflexivity.
Qed.

Lemma ExchangeInfo_events c h s :
  events (ExchangeInfo c h s) = [] \/
  exists r, events (ExchangeInfo c h s) = [EFetch r] /\ _instance s = false.
Proof.
  destruct (_instance s) eqn:H.
  - rewrite ExchangeInfo_initialised by assumption. left; reflexivity.
  - rewrite ExchangeInfo_uninitialised by assumption. right.
    destruct (futures_exchange_info c h); eexists; split; reflexivity.
Qed.

Lemma lookup_symbol_run c sym h s :
  lookup_symbol c sym h s =
  let r0 := ExchangeInfo c h s in
  match outc r0 with
  | Return _ => (Return (get_symbol_info (cls_of r0) sym), cls_of r0, events r0)
  | Raise e => (Raise e, cls_of r0, events r0)
  | Exit x => (Exit x, cls_of r0, events r0)
  end.
Proof.
  unfold lookup_symbol. rewrite bind_run.
  destruct (outc (ExchangeInfo c h s)); try reflexivity.
  simpl. rewrite bind_run. simpl. rewrite !app_nil_r. reflexivity.
Qed.

(** What a call of [validate_input] does: the cache is built if it was
    not, then the checks run on the cached information. *)
Lemma validate_input_run c sym q p h s :
  validate_input c sym q p h s =
  let r0 := ExchangeInfo c h s in
  match outc r0 with
  | Return _ =>
      let m := validate_checks (get_symbol_info (cls_of r0) sym) sym q p in
      (eval m, cls_of r0,
       events r0 ++ eval_events m ++ [EValidate sym q p (result_of (eval m))])
  | Raise e => (Raise e, cls_of r0, events r0 ++ [EValidate sym q p None])
  | Exit x => (Exit x, cls_of r0, events r0 ++ [EValidate sym q p None])
  end.
Proof.
  unfold validate_input, validate_input_body. rewrite bind_run, lookup_symbol_run.
  simpl. destruct (outc (ExchangeInfo c h s)); try reflexivity.
  simpl. rewrite (constant_run _ _ _ (constant_validate_checks _ sym q p)).
  unfold outc, cls_of, events; simpl. rewrite <- app_assoc. reflexivity.
Qed.

(** With the cache built, [validate_input] is a function of the cached
    information and of its arguments. *)
Lemma validate_input_initialised c sym q p h s :
  _instance s = true ->
  validate_input c sym q p h s =
  let m := validate_checks (get_symbol_info s sym) sym q p in
  (eval m, s, eval_events m ++ [EValidate sym q p (result_of (eval m))]).
Proof.
  intros H. rewrite validate_input_run, ExchangeInfo_initialised by assumption.
  reflexivity.
Qed.

Lemma validate_input_sets_instance c sym q p h s :
  _instance (cls_of (validate_input c sym q p h s)) = true.
Proof.
  rewrite validate_input_run. simpl.
  destruct (outc (ExchangeInfo c h s)); apply ExchangeInfo_sets_instance.
Qed.

Lemma Forall_is_log_internal l : Forall is_log l -> Forall internal l.
Proof.
  apply Forall_impl. intros [] H; simpl in *; auto.
Qed.

(** Before its ghost event, a call of [validate_input] emits fetches and
    log records only. *)
Lemma validate_input_events c sym q p h s :
  exists pre,
    events (validate_input c sym q p h s) =
      pre ++ [EValidate sym q p (result_of (outc (validate_input c sym q p h s)))]
    /\ Forall internal pre.
Proof.
  rewrite validate_input_run. simpl.
  assert (I0 : Forall internal (events (ExchangeInfo c h s))).
  { destruct (ExchangeInfo_events c h s) as [E|[r [E _]]]; rewrite E;
      repeat constructor. }
  destruct (outc (ExchangeInfo c h s)).
  - exists (events (ExchangeInfo c h s)
            ++ eval_events (validate_checks
                 (get_symbol_info (cls_of (ExchangeInfo c h s)) sym) sym q p)).
    split.
    + unfold events, outc; simpl. rewrite app_assoc. reflexivity.
    + apply Forall_app; split; auto. apply Forall_is_log_internal.
      apply constant_validate_checks.
  - exists (events (ExchangeInfo c h s)). split; auto.
  - exists (events (ExchangeInfo c h s)). split; auto.
Qed.

(* ================================================================= *)
(** ** Validation before submission *)

Opaque validate_input.

Lemma handle_error_log e : exists m, handle_error e = log ERROR m.
Proof. destruct e; eexists; reflexivity. Qed.

Lemma orderly_from_app seen l1 l2 :
  orderly_from seen (l1 ++ l2) <-> orderly_from seen l1 /\ orderly_from (seen ++ l1) l2.
Proof.
  revert seen. induction l1 as [|e l1 IH]; intros seen; simpl.
  - rewrite app_nil_r. tauto.
  - rewrite IH, <- app_assoc. simpl. tauto.
Qed.

Lemma orderly_from_quiet seen l : Forall internal l -> orderly_from seen l.
Proof.
  intros H. revert seen. induction H as [|e l He _ IH]; intros seen; simpl; auto.
  split; auto. destruct e; simpl in *; tauto.
Qed.

Lemma internal_no_validate l sym q p r :
  Forall internal l -> ~ In (EValidate sym q p r) l.
Proof.
  intros H Hin. rewrite Forall_forall in H. apply (H _ Hin).
Qed.

Lemma orderly_from_gated seen evs :
  orderly_from seen evs ->
  forall pre o r post, evs = pre ++ ESubmit o r :: post -> may_submit (seen ++ pre) o.
Proof.
  revert seen. induction evs as [|e evs IH]; intros seen H pre o r post E.
  - destruct pre; discriminate.
  - destruct pre as [|e' pre]; simpl in E; injection E as -> ->.
    + rewrite app_nil_r. apply H.
    + destruct H as [_ H]. specialize (IH _ H pre o r post eq_refl).
      rewrite <- app_assoc in IH. exact IH.
Qed.


Lemma all_passed_app l1 l2 : all_passed (l1 ++ l2) <-> all_passed l1 /\ all_passed l2.
Proof.
  unfold all_passed. split.
  - intros H; split; intros; eapply H; apply in_or_app; eauto.
  - intros [H1 H2] sym q p r Hin. apply in_app_or in Hin as [Hin|Hin]; eauto.
Qed.

Lemma all_passed_internal l : Forall internal l -> all_passed l.
Proof.
  intros H sym q p r Hin. exfalso. eapply internal_no_validate; eauto.
Qed.

Lemma all_passed_cons e l :
  all_passed (e :: l) <->
  match e with EValidate _ _ _ r => r = Some true | _ => True end /\ all_passed l.
Proof.
  unfold all_passed; split.
  - intros H; split.
    + destruct e; auto. eapply H; left; reflexivity.
    + intros; eapply H; right; eauto.
  - intros [H1 H2] sym q p r [E|Hin]; eauto. subst e. exact H1.
Qed.

(** A passing validation at the end of what was seen lets the validated
    order through. *)
Lemma may_submit_after seen pre sym q p o :
  all_passed seen -> Forall internal pre ->
  o_symbol o = sym -> o_quantity o = q -> price_agrees o p ->
  may_submit (seen ++ pre ++ [EValidate sym q p (Some true)]) o.
Proof.
  intros Hs Hpre <- <- Hp. split.
  - exists p. split; auto. apply in_or_app; right. apply in_or_app; right.
    left; reflexivity.
  - apply all_passed_app; split; auto. apply all_passed_app; split.
    + apply all_passed_internal; auto.
    + apply all_passed_cons; split; auto. intros ? ? ? ? [].
Qed.

Ltac run_validate c sym q p h s :=
  let o := fresh "o" in let s1 := fresh "s1" in let ev := fresh "ev" in
  let V := fresh "V" in let pre := fresh "pre" in
  let Ev := fresh "Ev" in let Hpre := fresh "Hpre" in
  destruct (validate_input_events c sym q p h s) as [pre [Ev Hpre]];
  destruct (validate_input c sym q p h s) as [[o s1] ev] eqn:V;
  unfold events, outc in Ev; simpl in Ev; subst ev.


Lemma handle_error_run e h s :
  exists m, handle_error e h s = (Return tt, s, [ELog ERROR m]).
Proof. destruct e; eexists; reflexivity. Qed.

Ltac run_handle_error :=
  match goal with
  | |- context [handle_error ?e ?h ?s] =>
      let m := fresh "m" in let Hm := fresh "Hm" in
      destruct (handle_error_run e h s) as [m Hm]; rewrite Hm; clear Hm
  end.

Ltac run_gateway :=
  match goal with
  | |- context [futures_create_order ?c ?h ?o] =>
      let g := fresh "g" in
      destruct (futures_create_order c h o) as [g|g]
  end.

Ltac orderly_tail :=
  repeat rewrite <- app_assoc; simpl;
  repeat match goal with
  | |- orderly_from _ (_ ++ _) => apply orderly_from_app; split
  | |- orderly_from _ ?l =>
      solve [apply orderly_from_quiet; assumption]
  | |- orderly_from _ (_ :: _) => simpl; split; [try exact I|]
  | |- orderly_from _ [] => exact I
  | |- True => exact I
  | |- _ /\ _ => split
  end.


Lemma all_passed_nil : all_passed [].
Proof. intros ? ? ? ? []. Qed.

Ltac passed :=
  repeat first
    [ assumption
    | apply all_passed_nil
    | apply all_passed_internal; assumption
    | apply all_passed_app; split
    | apply all_passed_cons; split; [first [reflexivity | exact I]|] ].

Ltac allowed :=
  split;
  [ eexists; split;
    [ repeat rewrite in_app_iff; simpl; eauto 12
    | unfold price_agrees; simpl; intros ? ?; congruence ]
  | passed ].

Ltac finish := first [solve [passed] | allowed].

Ltac run_strategy :=
  repeat first
    [ progress simpl
    | progress unfold call_futures_create_order
    | run_gateway
    | run_handle_error ].

Lemma market_orderly c sym side q h s seen:
  all_passed seen ->
  orderly_from seen (events (place_market_order c sym side q h s)).
Proof.
  intros Hs. unfold place_market_order, try_except, bind.
  run_validate c sym q (@None float) h s.
  destruct o as [[|]|e|x]; run_strategy; orderly_tail; finish.
Qed.

Lemma limit_orderly c sym side q p tif h s seen:
  all_passed seen ->
  orderly_from seen (events (place_limit_order c sym side q p tif h s)).
Proof.
  intros Hs. unfold place_limit_order, try_except, bind.
  run_validate c sym q (Some p) h s.
  destruct o as [[|]|e|x]; run_strategy; orderly_tail; finish.
Qed.

Lemma stop_limit_orderly c sym side q sp lp h s seen:
  all_passed seen ->
  orderly_from seen (events (place_stop_limit_order c sym side q sp lp h s)).
Proof.
  intros Hs. unfold place_stop_limit_order, try_except, bind.
  run_validate c sym q (Some lp) h s.
  destruct o as [[|]|e|x]; run_strategy; orderly_tail; finish.
Qed.

Lemma oco_orderly c sym side q tp sl h s seen:
  all_passed seen ->
  orderly_from seen (events (place_oco_order c sym side q tp sl h s)).
Proof.
  intros Hs.
  unfold place_oco_order, oco_validation_failed, try_except, bind.
  run_validate c sym q (Some tp) h s.
  destruct o as [[|]|e|x]; run_strategy; try (orderly_tail; finish).
  match goal with
  | |- context [validate_input c sym q (Some sl) ?h1 ?s1] =>
      run_validate c sym q (Some sl) h1 s1
  end.
  destruct o as [[|]|e|x]; run_strategy; orderly_tail; finish.
Qed.

Lemma silent_ret {A} (a : A) : silent (ret a).
Proof. intros h s; reflexivity. Qed.

Lemma silent_raise {A} (e : exn) : silent (@raise A e).
Proof. intros h s; reflexivity. Qed.

Lemma silent_bind {A B} (m : M A) (k : A -> M B) :
  silent m -> (forall a, silent (k a)) -> silent (bind m k).
Proof.
  intros Hm Hk.
  assert (E : forall h s, bind m k h s =
            match eval m with
            | Return a => (eval (k a), s, [])
            | Raise e => (Raise e, s, [])
            | Exit x => (Exit x, s, [])
            end).
  { intros h s. unfold bind. rewrite (Hm h s).
    destruct (eval m) as [a|e|x]; try reflexivity.
    rewrite (Hk a). reflexivity. }
  intros h s. unfold eval. rewrite (E h s), (E [] fresh).
  destruct (eval m); reflexivity.
Qed.

Lemma silent_float_of_int n : silent (float_of_int n).
Proof.
  unfold float_of_int.
  destruct (PyFloat.of_Z n); first [apply silent_raise | apply silent_ret].
Qed.

Lemma silent_float_div x y : silent (float_div x y).
Proof.
  unfold float_div. destruct (PyFloat.is_zero y); [apply silent_raise | apply silent_ret].
Qed.

Lemma silent_int_floordiv a b : silent (int_floordiv a b).
Proof.
  unfold int_floordiv. destruct (b =? 0); [apply silent_raise | apply silent_ret].
Qed.

Ltac silent_step :=
  first
    [ apply silent_ret | apply silent_raise
    | apply silent_float_of_int | apply silent_float_div | apply silent_int_floordiv
    | apply silent_bind; [| intros ?] ].

Lemma silent_grid_order_price lo step i : silent (grid_order_price lo step i).
Proof. unfold grid_order_price. repeat silent_step. Qed.

Lemma silent_grid_order_side lo hi p : silent (grid_order_side lo hi p).
Proof. unfold grid_order_side. repeat silent_step. Qed.

Lemma silent_grid_price_step lo hi n : silent (grid_price_step lo hi n).
Proof. unfold grid_price_step. repeat silent_step. Qed.

Lemma silent_twap_quantity_per_order q n : silent (twap_quantity_per_order q n).
Proof. unfold twap_quantity_per_order. repeat silent_step. Qed.

Opaque grid_order_price grid_order_side grid_price_step twap_quantity_per_order
  int_floordiv.

Ltac run_silent :=
  match goal with
  | |- context [grid_order_price ?a ?b ?i ?h ?s] =>
      rewrite (silent_grid_order_price a b i h s);
      destruct (eval (grid_order_price a b i))
  | |- context [grid_order_side ?a ?b ?p ?h ?s] =>
      rewrite (silent_grid_order_side a b p h s);
      destruct (eval (grid_order_side a b p))
  | |- context [grid_price_step ?a ?b ?n ?h ?s] =>
      rewrite (silent_grid_price_step a b n h s);
      destruct (eval (grid_price_step a b n))
  | |- context [twap_quantity_per_order ?q ?n ?h ?s] =>
      rewrite (silent_twap_quantity_per_order q n h s);
      destruct (eval (twap_quantity_per_order q n))
  | |- context [int_floordiv ?a ?b ?h ?s] =>
      rewrite (silent_int_floordiv a b h s);
      destruct (eval (int_floordiv a b))
  end.

Ltac run_next_validate :=
  match goal with
  | |- context [validate_input ?c ?sym ?q ?p ?h ?s] =>
      run_validate c sym q p h s
  end.

Ltac run_loop IH :=
  match goal with
  | |- context [twap_loop ?c ?sym ?side ?q ?n ?iv ?rest ?h1 ?s1] =>
      let G := fresh "G" in
      pose proof (fun seen => IH h1 s1 seen) as G;
      destruct (twap_loop c sym side q n iv rest h1 s1) as [[? ?] ?];
      unfold events in G; simpl in G; simpl;
      orderly_tail; try finish; try (apply G; passed)
  | |- context [grid_loop ?c ?sym ?lo ?hi ?st ?q ?rest ?orders ?h1 ?s1] =>
      let G := fresh "G" in
      pose proof (fun seen => IH orders h1 s1 seen) as G;
      destruct (grid_loop c sym lo hi st q rest orders h1 s1) as [[? ?] ?];
      unfold events in G; simpl in G; simpl;
      orderly_tail; try finish; try (apply G; passed)
  end.

Lemma twap_loop_orderly c sym side qpo n iv indices :
  forall h s seen, all_passed seen ->
  orderly_from seen (events (twap_loop c sym side qpo n iv indices h s)).
Proof.
  induction indices as [|i rest IH]; intros h s seen Hs; [exact I|].
  simpl. unfold try_except, bind.
  run_next_validate.
  destruct o as [[|]|e|x]; run_strategy; try (orderly_tail; finish);
    destruct (i <? n - 1); simpl; run_loop IH.
Qed.

Lemma grid_loop_orderly c sym lo hi step q levels :
  forall orders h s seen, all_passed seen ->
  orderly_from seen (events (grid_loop c sym lo hi step q levels orders h s)).
Proof.
  induction levels as [|i rest IH]; intros orders h s seen Hs; [exact I|].
  simpl. unfold try_except, bind.
  run_silent; simpl; try exact I.
  run_silent; simpl; try exact I.
  run_next_validate.
  destruct o as [[|]|e|x]; run_strategy; try (orderly_tail; finish);
    run_loop IH.
Qed.

Ltac run_whole_loop :=
  match goal with
  | |- context [twap_loop ?c ?sym ?side ?q ?n ?iv ?rest ?h1 ?s1] =>
      let G := fresh "G" in let o2 := fresh "o" in
      pose proof (fun seen => twap_loop_orderly c sym side q n iv rest h1 s1 seen) as G;
      destruct (twap_loop c sym side q n iv rest h1 s1) as [[o2 ?] ?];
      unfold events in G; simpl in G; destruct o2 as [[]| |]
  | |- context [grid_loop ?c ?sym ?lo ?hi ?st ?q ?rest ?orders ?h1 ?s1] =>
      let G := fresh "G" in let o2 := fresh "o" in
      pose proof (fun seen => grid_loop_orderly c sym lo hi st q rest orders h1 s1 seen) as G;
      destruct (grid_loop c sym lo hi st q rest orders h1 s1) as [[o2 ?] ?];
      unfold events in G; simpl in G; destruct o2 as [[]| |]
  end.

Lemma twap_orderly c sym side q d iv h s seen :
  all_passed seen ->
  orderly_from seen (events (place_twap_order c sym side q d iv h s)).
Proof.
  intros Hs. unfold place_twap_order, try_except, bind.
  run_silent; run_strategy; try solve [orderly_tail].
  destruct (a =? 0); run_strategy; try solve [orderly_tail].
  run_silent; run_strategy; try solve [orderly_tail].
  run_whole_loop; run_strategy; orderly_tail; apply G; passed.
Qed.

Lemma grid_orderly c sym lo hi n q h s seen :
  all_passed seen ->
  orderly_from seen (events (place_grid_orders c sym lo hi n q h s)).
Proof.
  intros Hs. unfold place_grid_orders, try_except, bind.
  destruct (n <=? 1); run_strategy; try solve [orderly_tail].
  run_silent; run_strategy; try solve [orderly_tail].
  run_whole_loop; run_strategy; orderly_tail; apply G; passed.
Qed.

Transparent validate_input grid_order_price grid_order_side grid_price_step
  twap_quantity_per_order int_floordiv.

Lemma bind_ret_events {A} (m : M A) h s :
  events (bind m (fun _ => ret tt) h s) = events (m h s).
Proof.
  unfold bind. destruct (m h s) as [[[a|e|x] s1] ev]; simpl; auto.
  apply app_nil_r.
Qed.

(** Every strategy invocation is orderly from its start. *)
Lemma invoke_orderly c (i : invocation) h s :
  orderly_from [] (events (invoke c i h s)).
Proof.
  destruct i; simpl; rewrite ?bind_ret_events;
    [ apply market_orderly | apply limit_orderly | apply stop_limit_orderly
    | apply oco_orderly | apply twap_orderly | apply grid_orderly ];
    apply all_passed_nil.
Qed.




(** The property is not empty: a gateway call that nothing precedes is
    not allowed. *)
Lemma gated_rejects_unvalidated o r : ~ gated [ESubmit o r].
Proof.
  intros G. destruct (G [] o r [] eq_refl) as [[p [[] _]] _].
Qed.

(** C1: in every strategy invocation (market, limit, stop-limit,
    simulated bracket, TWAP, grid), every order submitted to the gateway
    comes after a [validate_input] call of the same invocation that
    returned [True] for that order's symbol and quantity (and price, when
    the order has one), and no gateway call follows a [validate_input]
    call that returned [False], raised or exited. *)
Theorem no_submission_without_validation c (i : invocation) h s :
  gated (events (invoke c i h s)).
Proof.
  intros pre o r post E.
  exact (orderly_from_gated [] _ (invoke_orderly c i h s) pre o r post E).
Qed.

(* ================================================================= *)
(** ** One fetch per process *)

Lemma fetches_app l1 l2 : fetches (l1 ++ l2) = (fetches l1 + fetches l2)%nat.
Proof.
  induction l1 as [|e l1 IH]; simpl; auto. destruct e; simpl; auto.
Qed.

Lemma fetches_logs l : Forall is_log l -> fetches l = 0%nat.
Proof.
  induction 1 as [|e l He _ IH]; simpl; auto. destruct e; simpl in *; tauto.
Qed.

Lemma thrifty_ret {A} (a : A) : thrifty (ret a).
Proof. intros h s; simpl; split; auto. Qed.

Lemma thrifty_raise {A} (e : exn) : thrifty (@raise A e).
Proof. intros h s; simpl; split; auto. Qed.

Lemma thrifty_log l m : thrifty (log l m).
Proof. intros h s; simpl; split; auto. Qed.

Lemma thrifty_sleep n : thrifty (sleep n).
Proof. intros h s; simpl; split; auto. Qed.

Lemma thrifty_handle_error e : thrifty (handle_error e).
Proof. destruct e; apply thrifty_log. Qed.

Lemma thrifty_silent {A} (m : M A) : silent m -> thrifty m.
Proof. intros H h s. rewrite (H h s). simpl; split; auto. Qed.

Lemma thrifty_bind {A B} (m : M A) (k : A -> M B) :
  thrifty m -> (forall a, thrifty (k a)) -> thrifty (bind m k).
Proof.
  intros Hm Hk h s. destruct (Hm h s) as [F1 K1]. unfold bind.
  destruct (m h s) as [[[a|e|x] s1] ev1]; unfold events, cls_of in *;
    simpl in *; auto.
  destruct (Hk a (h ++ ev1) s1) as [F2 K2].
  destruct (k a (h ++ ev1) s1) as [[o2 s2] ev2]; unfold events, cls_of in *;
    simpl in *.
  rewrite fetches_app. split; [lia|].
  intros I. rewrite (K1 I) in *. auto.
Qed.

Lemma thrifty_try_except {A} (m : M A) (k : exn -> M A) :
  thrifty m -> (forall e, thrifty (k e)) -> thrifty (try_except m k).
Proof.
  intros Hm Hk h s. destruct (Hm h s) as [F1 K1]. unfold try_except.
  destruct (m h s) as [[[a|e|x] s1] ev1]; unfold events, cls_of in *;
    simpl in *; auto.
  destruct (Hk e (h ++ ev1) s1) as [F2 K2].
  destruct (k e (h ++ ev1) s1) as [[o2 s2] ev2]; unfold events, cls_of in *;
    simpl in *.
  rewrite fetches_app. split; [lia|].
  intros I. rewrite (K1 I) in *. auto.
Qed.

Lemma thrifty_ExchangeInfo c : thrifty (ExchangeInfo c).
Proof.
  intros h s. unfold budget. destruct (_instance s) eqn:I.
  - rewrite ExchangeInfo_initialised by assumption. unfold cls_of; simpl.
    rewrite I. auto.
  - rewrite ExchangeInfo_uninitialised by assumption.
    destruct (futures_exchange_info c h); simpl; split; auto; discriminate.
Qed.

Lemma thrifty_lookup_symbol c sym : thrifty (lookup_symbol c sym).
Proof.
  unfold lookup_symbol. apply thrifty_bind; [apply thrifty_ExchangeInfo|].
  intros _. intros h s. simpl. split; auto.
Qed.

Lemma thrifty_validate_input c sym q p : thrifty (validate_input c sym q p).
Proof.
  intros h s. destruct (thrifty_ExchangeInfo c h s) as [F K].
  rewrite validate_input_run. simpl.
  destruct (outc (ExchangeInfo c h s)); unfold events, cls_of in *; simpl;
    rewrite ?fetches_app; simpl; rewrite ?Nat.add_0_r.
  - rewrite (fetches_logs (eval_events _)) by apply constant_validate_checks.
    rewrite Nat.add_0_r. auto.
  - auto.
  - auto.
Qed.

Lemma thrifty_call_futures_create_order c o : thrifty (call_futures_create_order c o).
Proof.
  intros h s. unfold call_futures_create_order.
  destruct (futures_create_order c h o); simpl; split; auto.
Qed.

Ltac thrifty_step :=
  first
    [ apply thrifty_ret | apply thrifty_raise | apply thrifty_log
    | apply thrifty_sleep | apply thrifty_handle_error
    | apply thrifty_validate_input | apply thrifty_call_futures_create_order
    | apply thrifty_lookup_symbol
    | apply thrifty_silent;
      first [ apply silent_grid_order_price | apply silent_grid_order_side
            | apply silent_grid_price_step | apply silent_twap_quantity_per_order
            | apply silent_int_floordiv ]
    | apply thrifty_bind; [| intros ?]
    | apply thrifty_try_except; [| intros ?]
    | match goal with
      | H : _ |- _ => apply H
      | |- thrifty (if ?b then _ else _) => destruct b
      | |- thrifty (match ?x with _ => _ end) => destruct x
      end ].

Lemma thrifty_twap_loop c sym side q n iv indices :
  thrifty (twap_loop c sym side q n iv indices).
Proof.
  induction indices as [|i rest IH]; simpl; repeat thrifty_step.
Qed.

Lemma thrifty_grid_loop c sym lo hi st q levels :
  forall orders, thrifty (grid_loop c sym lo hi st q levels orders).
Proof.
  induction levels as [|i rest IH]; intros orders; simpl; repeat thrifty_step.
Qed.

Lemma thrifty_invoke c i : thrifty (invoke c i).
Proof.
  destruct i; simpl;
    unfold place_market_order, place_limit_order, place_stop_limit_order,
      place_oco_order, oco_validation_failed, place_twap_order, place_grid_orders;
    repeat first [ apply thrifty_twap_loop | apply thrifty_grid_loop | thrifty_step ].
Qed.

Lemma thrifty_process c calls : thrifty (process c calls).
Proof.
  induction calls as [|k rest IH]; simpl; [apply thrifty_ret|].
  apply thrifty_bind; [| intros _; exact IH].
  apply thrifty_try_except; [| intros _; apply thrifty_ret].
  destruct k; simpl; [apply thrifty_invoke | |]; repeat thrifty_step.
Qed.

Lemma lookup_symbol_initialised c sym h s :
  _instance s = true ->
  lookup_symbol c sym h s = (Return (get_symbol_info s sym), s, []).
Proof.
  intros I. rewrite lookup_symbol_run, ExchangeInfo_initialised by assumption.
  reflexivity.
Qed.

Lemma lookup_times_initialised c sym n h s :
  _instance s = true ->
  lookup_times c sym n h s = (Return (repeat (get_symbol_info s sym) n), s, []).
Proof.
  intros I. revert h. induction n as [|n IH]; intros h; simpl; [reflexivity|].
  unfold bind. rewrite lookup_symbol_initialised by assumption.
  rewrite IH. reflexivity.
Qed.

Lemma get_symbol_info_absent s info sym :
  _info s = Some info -> (forall si, In si info -> symbol si <> sym) ->
  get_symbol_info s sym = None.
Proof.
  intros E H. unfold get_symbol_info. rewrite E.
  destruct (find _ info) as [si|] eqn:F; auto.
  apply find_some in F as [Hin Heq]. apply String.eqb_eq in Heq.
  exfalso. exact (H si Hin Heq).
Qed.

(** C9: the exchange information is fetched at most once per process;
    once the cache is built, no call fetches again or changes it, any
    number of lookups of a symbol return the same cached answer, and the
    lookup of a symbol that is not in the cached list returns [None]
    without a fetch. *)
Theorem exchange_info_fetched_once c :
  (forall calls h, (fetches (events (process c calls h fresh)) <= 1)%nat) /\
  (forall s calls h, _instance s = true ->
     fetches (events (process c calls h s)) = 0%nat /\
     cls_of (process c calls h s) = s) /\
  (forall s sym n h, _instance s = true ->
     lookup_times c sym n h s = (Return (repeat (get_symbol_info s sym) n), s, [])) /\
  (forall s info sym h, _instance s = true -> _info s = Some info ->
     (forall si, In si info -> symbol si <> sym) ->
     lookup_symbol c sym h s = (Return None, s, [])).
Proof.
  split; [|split; [|split]].
  - intros calls h. destruct (thrifty_process c calls h fresh) as [F _].
    change (budget fresh) with 1%nat in F. lia.
  - intros s calls h I. destruct (thrifty_process c calls h s) as [F K].
    split; [|auto]. unfold budget in F at 2. rewrite I in F. lia.
  - intros. apply lookup_times_initialised; assumption.
  - intros s info sym h I E A. rewrite lookup_symbol_initialised by assumption.
    rewrite (get_symbol_info_absent s info sym E A). reflexivity.
Qed.

Lemma exchange_info_fetched_once_witness :
  (fetches (events (process unit_client
                      [CallValidate "BTCUSDT" (fz 2) None;
                       CallStrategy (Market "BTCUSDT" "BUY" (fz 2));
                       CallLookup "XYZUSDT"] [] fresh)) <= 1)%nat /\
  lookup_times unit_client "BTCUSDT" 3 [] (cached unit_exchange_info)
    = (Return (repeat (get_symbol_info (cached unit_exchange_info) "BTCUSDT") 3),
       cached unit_exchange_info, []) /\
  lookup_symbol unit_client "XYZUSDT" [] (cached unit_exchange_info)
    = (Return None, cached unit_exchange_info, []).
Proof.
  destruct (exchange_info_fetched_once unit_client) as (A & _ & C & D).
  split; [apply A|]. split.
  - apply C. reflexivity.
  - apply (D (cached unit_exchange_info) unit_exchange_info); try reflexivity.
    intros si [<-|[]]. discriminate.
Defined.


(* ================================================================= *)
(** ** Floats: comparisons and NaN *)

Lemma SFcompare_antisym x y c :
  SFcompare x y = Some c -> SFcompare y x = Some (CompOpp c).
Proof.
  destruct x as [sx|sx| |sx mx ex], y as [sy|sy| |sy my ey]; simpl;
    try discriminate.
  9: { destruct sx, sy; intros [= <-]; try reflexivity;
      rewrite (Z.compare_antisym ex ey); destruct (ex ?= ey); simpl;
      try reflexivity;
      change (PosDef.Pos.compare_cont) with Pos.compare_cont;
      rewrite <- (Pos.compare_cont_antisym _ _ Eq); simpl;
      rewrite ?CompOpp_involutive; reflexivity. }
  all: try (intros [= <-]; reflexivity).
  all: try (destruct sx; intros [= <-]; reflexivity).
  all: try (destruct sy; intros [= <-]; reflexivity).
  all: try (destruct sx, sy; intros [= <-]; reflexivity).
Qed.

Lemma SFcompare_None x y :
  SFcompare x y = None -> x = S754_nan \/ y = S754_nan.
Proof.
  destruct x as [sx|sx| |sx mx ex], y as [sy|sy| |sy my ey]; simpl; auto;
    discriminate.
Qed.

Lemma leb_ltb x y : PyFloat.leb x y = true -> PyFloat.ltb y x = false.
Proof.
  unfold PyFloat.leb, PyFloat.ltb, SFleb, SFltb.
  destruct (SFcompare x y) as [c|] eqn:E; [|discriminate].
  rewrite (SFcompare_antisym _ _ _ E). destruct c; simpl; auto; discriminate.
Qed.

Lemma ltb_leb x y :
  PyFloat.is_nan x = false -> PyFloat.is_nan y = false ->
  PyFloat.ltb y x = false -> PyFloat.leb x y = true.
Proof.
  unfold PyFloat.leb, PyFloat.ltb, SFleb, SFltb. intros Nx Ny.
  destruct (SFcompare y x) as [c|] eqn:E.
  - rewrite (SFcompare_antisym _ _ _ E). destruct c; simpl; auto; discriminate.
  - apply SFcompare_None in E as [->| ->]; discriminate.
Qed.

Lemma sub_nan_l y : PyFloat.sub S754_nan y = S754_nan.
Proof. reflexivity. Qed.

Lemma rem_nan y : PyFloat.rem S754_nan y = S754_nan.
Proof.
  unfold PyFloat.rem. simpl. destruct (xorb _ _); reflexivity.
Qed.

Lemma ne0_rem_nan y z : PyFloat.ne0 (PyFloat.rem (PyFloat.sub S754_nan y) z) = true.
Proof. rewrite sub_nan_l, rem_nan. reflexivity. Qed.

(** Rounding a non-negative mantissa never gives NaN. *)
Lemma shr_1_nonneg mrs : 0 <= shr_m mrs -> 0 <= shr_m (shr_1 mrs).
Proof.
  destruct mrs as [m r s]. destruct m as [|p|p]; simpl; try lia;
    destruct p; simpl; lia.
Qed.

Lemma iter_shr_1_nonneg p :
  forall mrs, 0 <= shr_m mrs -> 0 <= shr_m (iter_pos shr_1 p mrs).
Proof.
  induction p as [p IH|p IH|]; intros mrs H; simpl.
  - apply IH, IH, shr_1_nonneg, H.
  - apply IH, IH, H.
  - apply shr_1_nonneg, H.
Qed.

Lemma shr_fexp_nonneg prec emax m e l :
  0 <= m -> 0 <= shr_m (fst (shr_fexp prec emax m e l)).
Proof.
  intros H. unfold shr_fexp, shr.
  assert (H0 : 0 <= shr_m (shr_record_of_loc m l)) by (destruct l as [|[]]; exact H).
  destruct (fexp prec emax (Zdigits2 m + e) - e); simpl; auto.
  apply iter_shr_1_nonneg, H0.
Qed.

Lemma round_nearest_even_nonneg m l : 0 <= m -> 0 <= round_nearest_even m l.
Proof.
  intros H. destruct l as [|[]]; simpl; try lia. destruct (Z.even m); lia.
Qed.

Lemma binary_round_aux_not_nan prec emax sx mx ex lx :
  0 <= mx -> PyFloat.is_nan (binary_round_aux prec emax sx mx ex lx) = false.
Proof.
  intros H. unfold binary_round_aux.
  pose proof (shr_fexp_nonneg prec emax mx ex lx H) as H1.
  destruct (shr_fexp prec emax mx ex lx) as [mrs' e']. simpl in H1.
  pose proof (shr_fexp_nonneg prec emax _ e' loc_Exact
                (round_nearest_even_nonneg _ (loc_of_shr_record mrs') H1)) as H2.
  destruct (shr_fexp prec emax _ e' loc_Exact) as [mrs'' e'']. simpl in H2.
  destruct (shr_m mrs''); try lia; [reflexivity|].
  destruct (e'' <=? emax - prec); reflexivity.
Qed.

Lemma of_ratio_not_nan neg n d : PyFloat.is_nan (PyFloat.of_ratio neg n d) = false.
Proof.
  unfold PyFloat.of_ratio, PyFloat.ieee_div, SFdiv, SFdiv_core_binary.
  set (e' := Z.min _ _). set (m' := match 0 - 0 - e' with Z0 => _ | _ => _ end).
  assert (Hm : 0 <= m').
  { unfold m'. destruct (0 - 0 - e'); try lia. apply Z.shiftl_nonneg. lia. }
  pose proof (Z.div_pos m' (Zpos d) Hm eq_refl) as Hq.
  unfold Z.div in Hq. destruct (Z.div_eucl m' (Zpos d)) as [q r]. simpl in Hq.
  apply binary_round_aux_not_nan, Hq.
Qed.

Lemma float_of_decimal_not_nan d : PyFloat.is_nan (float_of_decimal d) = false.
Proof.
  unfold float_of_decimal. destruct (dec_coeff d); [reflexivity|].
  apply of_ratio_not_nan.
Qed.

(* ================================================================= *)
(** ** The validator *)

Lemma float_field_of_field f key v :
  field f key = Some v -> float_field f key = ret v.
Proof.
  unfold field, float_field. destruct (find _ (fields f)); simpl; congruence.
Qed.

(** The checks on a symbol whose filters are [F], run step by step. *)
Lemma validate_checks_known si F sym q price h s :
  symbol_filters si = Some F ->
  validate_checks (Some si) sym q price h s =
  if PyFloat.ltb q (minQty F) || PyFloat.gtb q (maxQty F) then
    (Return false, s, [ELog ERROR (InvalidQuantity q sym (minQty F) (maxQty F))])
  else if PyFloat.is_zero (stepSize F) then (Raise ZeroDivisionError, s, [])
  else if PyFloat.ne0 (PyFloat.rem (PyFloat.sub q (minQty F)) (stepSize F)) then
    (Return false, s, [ELog ERROR (InvalidQuantityStep sym (stepSize F))])
  else
    match price_given price with
    | Some p =>
      if PyFloat.ltb p (minPrice F) || PyFloat.gtb p (maxPrice F) then
        (Return false, s, [ELog ERROR (InvalidPrice p sym (minPrice F) (maxPrice F))])
      else if PyFloat.is_zero (tickSize F) then (Raise ZeroDivisionError, s, [])
      else if PyFloat.ne0 (PyFloat.rem (PyFloat.sub p (minPrice F)) (tickSize F)) then
        (Return false, s, [ELog ERROR (InvalidPriceTick sym (tickSize F))])
      else (Return true, s, [])
    | None => (Return true, s, [])
    end.
Proof.
  unfold symbol_filters, validate_checks.
  destruct (find_filter "PRICE_FILTER" (filters si)) as [pf|]; [|discriminate].
  destruct (find_filter "LOT_SIZE" (filters si)) as [lf|]; [|discriminate].
  destruct (field lf "minQty") as [a|] eqn:Ea; [|discriminate].
  destruct (field lf "maxQty") as [b|] eqn:Eb; [|discriminate].
  destruct (field lf "stepSize") as [c|] eqn:Ec; [|discriminate].
  destruct (field pf "minPrice") as [d|] eqn:Ed; [|discriminate].
  destruct (field pf "maxPrice") as [e|] eqn:Ee; [|discriminate].
  destruct (field pf "tickSize") as [f|] eqn:Ef; [|discriminate].
  intros [= <-]. simpl.
  rewrite (float_field_of_field _ _ _ Ea), (float_field_of_field _ _ _ Eb),
    (float_field_of_field _ _ _ Ec), (float_field_of_field _ _ _ Ed),
    (float_field_of_field _ _ _ Ee), (float_field_of_field _ _ _ Ef).
  unfold bind, ret, float_mod, raise, log, emit. simpl.
  destruct (PyFloat.ltb q a || PyFloat.gtb q b); [reflexivity|].
  destruct (PyFloat.is_zero c); [reflexivity|]. simpl.
  destruct (PyFloat.ne0 _); [reflexivity|].
  destruct (price_given price) as [p|]; [|reflexivity]. simpl.
  destruct (PyFloat.ltb p d || PyFloat.gtb p e); [reflexivity|].
  destruct (PyFloat.is_zero f); [reflexivity|]. simpl.
  destruct (PyFloat.ne0 _); reflexivity.
Qed.

Lemma field_not_nan f key v : field f key = Some v -> PyFloat.is_nan v = false.
Proof.
  unfold field. destruct (find _ (fields f)); simpl; [|discriminate].
  intros [= <-]. apply float_of_decimal_not_nan.
Qed.

Lemma symbol_filters_not_nan si F :
  symbol_filters si = Some F ->
  PyFloat.is_nan (minQty F) = false /\ PyFloat.is_nan (maxQty F) = false /\
  PyFloat.is_nan (minPrice F) = false /\ PyFloat.is_nan (maxPrice F) = false.
Proof.
  unfold symbol_filters.
  destruct (find_filter "PRICE_FILTER" (filters si)) as [pf|]; [|discriminate].
  destruct (find_filter "LOT_SIZE" (filters si)) as [lf|]; [|discriminate].
  destruct (field lf "minQty") as [a|] eqn:Ea; [|discriminate].
  destruct (field lf "maxQty") as [b|] eqn:Eb; [|discriminate].
  destruct (field lf "stepSize") as [c|] eqn:Ec; [|discriminate].
  destruct (field pf "minPrice") as [d|] eqn:Ed; [|discriminate].
  destruct (field pf "maxPrice") as [e|] eqn:Ee; [|discriminate].
  destruct (field pf "tickSize") as [f|] eqn:Ef; [|discriminate].
  intros [= <-]. simpl.
  repeat split; eapply field_not_nan; eassumption.
Qed.

Lemma within_nan lo hi : within S754_nan lo hi = false.
Proof. unfold within. destruct lo; reflexivity. Qed.

Lemma is_nan_true x : PyFloat.is_nan x = true -> x = S754_nan.
Proof. destruct x; simpl; congruence. Qed.

(** The range test of the code is the negation of [within], on numbers. *)
Lemma out_of_range_within x lo hi :
  PyFloat.is_nan x = false -> PyFloat.is_nan lo = false -> PyFloat.is_nan hi = false ->
  PyFloat.ltb x lo || PyFloat.gtb x hi = negb (within x lo hi).
Proof.
  intros Nx Nlo Nhi. unfold within, PyFloat.gtb.
  change (SFltb hi x) with (PyFloat.ltb hi x).
  destruct (PyFloat.ltb x lo) eqn:E1; simpl.
  - destruct (PyFloat.leb lo x) eqn:E2; [|reflexivity].
    apply leb_ltb in E2. congruence.
  - rewrite (ltb_leb lo x Nlo Nx E1). simpl.
    destruct (PyFloat.ltb hi x) eqn:E3.
    + destruct (PyFloat.leb x hi) eqn:E4; [|reflexivity].
      apply leb_ltb in E4. congruence.
    + rewrite (ltb_leb x hi Nx Nhi E3). reflexivity.
Qed.

Lemma on_step_nan base step : on_step S754_nan base step = false.
Proof.
  unfold on_step. rewrite sub_nan_l, rem_nan. simpl. apply andb_false_r.
Qed.

Lemma logged_app l1 l2 : logged (l1 ++ l2) = logged l1 ++ logged l2.
Proof.
  induction l1 as [|e l1 IH]; simpl; auto. destruct e; simpl; congruence.
Qed.

(** The decision of the checks, for a symbol whose filters are [F]. *)
Lemma validate_checks_accepts si F sym q price :
  symbol_filters si = Some F ->
  (eval (validate_checks (Some si) sym q price) = Return true <->
   spec_validate F q (price_given price) = None).
Proof.
  intros HF. destruct (symbol_filters_not_nan si F HF) as (N1 & N2 & N3 & N4).
  unfold eval. rewrite (validate_checks_known si F sym q price [] fresh HF).
  unfold spec_validate, on_step, PyFloat.ne0.
  destruct (PyFloat.is_nan q) eqn:Nq.
  - apply is_nan_true in Nq. subst q. rewrite within_nan, sub_nan_l, rem_nan.
    simpl.
    repeat match goal with
           | |- context [if ?b then _ else _] => destruct b
           end; simpl; split; discriminate.
  - rewrite (out_of_range_within q _ _ Nq N1 N2).
    destruct (within q (minQty F) (maxQty F)); simpl; [|split; discriminate].
    destruct (PyFloat.is_zero (stepSize F)); simpl; [split; discriminate|].
    destruct (PyFloat.eqb _ PyFloat.zero); simpl; [|split; discriminate].
    destruct (price_given price) as [p|]; [|split; reflexivity].
    destruct (PyFloat.is_nan p) eqn:Np.
    + apply is_nan_true in Np. subst p. rewrite within_nan, sub_nan_l, rem_nan.
      simpl.
      repeat match goal with
             | |- context [if ?b then _ else _] => destruct b
             end; simpl; split; discriminate.
    + rewrite (out_of_range_within p _ _ Np N3 N4).
      destruct (within p (minPrice F) (maxPrice F)); simpl; [|split; discriminate].
      destruct (PyFloat.is_zero (tickSize F)); simpl; [split; discriminate|].
      destruct (PyFloat.eqb _ PyFloat.zero); simpl; split; try discriminate;
        reflexivity.
Qed.



Lemma initialised_ready c h s :
  _instance s = true -> cache_ready c h s /\ cache_after c h s = s.
Proof.
  intros I. unfold cache_ready, cache_after.
  rewrite ExchangeInfo_initialised by assumption. split; reflexivity.
Qed.

Lemma validate_input_known c sym q price h s :
  cache_ready c h s ->
  outc (validate_input c sym q price h s)
    = eval (validate_checks (get_symbol_info (cache_after c h s) sym) sym q price) /\
  cls_of (validate_input c sym q price h s) = cache_after c h s /\
  logged (events (validate_input c sym q price h s))
    = logged (eval_events
                (validate_checks (get_symbol_info (cache_after c h s) sym) sym q price)).
Proof.
  unfold cache_ready, cache_after. intros I. rewrite validate_input_run.
  cbv zeta. rewrite I.
  assert (L : logged (events (ExchangeInfo c h s)) = []).
  { destruct (ExchangeInfo_events c h s) as [E|[r [E _]]]; rewrite E; reflexivity. }
  split; [reflexivity|]. split; [reflexivity|].
  unfold events at 1. cbn [snd]. rewrite !logged_app, L. simpl.
  apply app_nil_r.
Qed.




Lemma on_step_true x base step :
  on_step x base step = true ->
  PyFloat.is_nan x = false /\ PyFloat.is_zero step = false /\
  PyFloat.ne0 (PyFloat.rem (PyFloat.sub x base) step) = false.
Proof.
  unfold on_step, PyFloat.ne0. intros H. apply andb_true_iff in H as [H1 H2].
  rewrite H2. apply negb_true_iff in H1. repeat split; auto.
  destruct x; try reflexivity. rewrite sub_nan_l, rem_nan in H2. discriminate.
Qed.

Lemma off_step_true x base step :
  off_step x base step = true ->
  PyFloat.is_zero step = false /\
  PyFloat.ne0 (PyFloat.rem (PyFloat.sub x base) step) = true.
Proof.
  unfold off_step. intros H. apply andb_true_iff in H as [H1 H2].
  apply negb_true_iff in H1. auto.
Qed.

Lemma within_true x lo hi : within x lo hi = true -> PyFloat.is_nan x = false.
Proof.
  destruct x; try reflexivity. rewrite within_nan. discriminate.
Qed.

(** C5 (amended): for every input that violates exactly one validation
    condition (the price conditions bearing on a price that is present
    and not zero), [validate_input] returns the bare value [False] and
    logs exactly one error record, the one of that condition. *)
Theorem validate_input_logs_specific_error c sym q price h s F e :
  cache_ready c h s ->
  violates_only (get_symbol_info (cache_after c h s) sym) F q (price_given price) e ->
  outc (validate_input c sym q price h s) = Return false /\
  exists m, logged (events (validate_input c sym q price h s)) = [(ERROR, m)]
            /\ error_of_record m = Some e.
Proof.
  intros I [V O]. destruct (validate_input_known c sym q price h s I) as (Ho & _ & Hl).
  rewrite Ho, Hl. clear Ho Hl.
  destruct e; simpl in V.
  - rewrite V. split; [reflexivity|]. eexists; split; reflexivity.
  - destruct (O UnknownSymbol ltac:(discriminate)) as (si & E & HF).
    pose proof (O QuantityStepMismatch ltac:(discriminate)) as S. simpl in S.
    apply on_step_true in S as (Nq & _ & _).
    destruct (symbol_filters_not_nan si F HF) as (N1 & N2 & _).
    rewrite E. unfold eval, eval_events.
    rewrite (validate_checks_known si F sym q price [] fresh HF).
    rewrite (out_of_range_within q _ _ Nq N1 N2), V. simpl.
    split; [reflexivity|]. eexists; split; reflexivity.
  - destruct (O UnknownSymbol ltac:(discriminate)) as (si & E & HF).
    pose proof (O QuantityOutOfRange ltac:(discriminate)) as R. simpl in R.
    destruct (symbol_filters_not_nan si F HF) as (N1 & N2 & _).
    apply off_step_true in V as [Z1 Z2].
    rewrite E. unfold eval, eval_events.
    rewrite (validate_checks_known si F sym q price [] fresh HF).
    rewrite (out_of_range_within q _ _ (within_true _ _ _ R) N1 N2), R, Z1, Z2.
    simpl. split; [reflexivity|]. eexists; split; reflexivity.
  - destruct (O UnknownSymbol ltac:(discriminate)) as (si & E & HF).
    pose proof (O QuantityOutOfRange ltac:(discriminate)) as R. simpl in R.
    pose proof (O QuantityStepMismatch ltac:(discriminate)) as S. simpl in S.
    pose proof (O PriceTickMismatch ltac:(discriminate)) as T. simpl in T.
    destruct V as (p & Ep & V). specialize (T p Ep).
    apply on_step_true in S as (_ & Z1 & Z2).
    apply on_step_true in T as (Np & _ & _).
    destruct (symbol_filters_not_nan si F HF) as (N1 & N2 & N3 & N4).
    rewrite E. unfold eval, eval_events.
    rewrite (validate_checks_known si F sym q price [] fresh HF).
    rewrite (out_of_range_within q _ _ (within_true _ _ _ R) N1 N2), R, Z1, Z2, Ep.
    rewrite (out_of_range_within p _ _ Np N3 N4), V.
    simpl. split; [reflexivity|]. eexists; split; reflexivity.
  - destruct (O UnknownSymbol ltac:(discriminate)) as (si & E & HF).
    pose proof (O QuantityOutOfRange ltac:(discriminate)) as R. simpl in R.
    pose proof (O QuantityStepMismatch ltac:(discriminate)) as S. simpl in S.
    pose proof (O PriceOutOfRange ltac:(discriminate)) as T. simpl in T.
    destruct V as (p & Ep & V). specialize (T p Ep).
    apply on_step_true in S as (_ & Z1 & Z2).
    apply off_step_true in V as [Y1 Y2].
    destruct (symbol_filters_not_nan si F HF) as (N1 & N2 & N3 & N4).
    rewrite E. unfold eval, eval_events.
    rewrite (validate_checks_known si F sym q price [] fresh HF).
    rewrite (out_of_range_within q _ _ (within_true _ _ _ R) N1 N2), R, Z1, Z2, Ep.
    rewrite (out_of_range_within p _ _ (within_true _ _ _ T) N3 N4), T, Y1, Y2.
    simpl. split; [reflexivity|]. eexists; split; reflexivity.
Qed.

Lemma unit_quantity_above_max :
  violates_only (get_symbol_info (cached unit_exchange_info) "BTCUSDT")
    unit_filters (fz 1001) None QuantityOutOfRange.
Proof.
  split; [vm_compute; reflexivity|].
  intros e' He'. destruct e'; simpl.
  - eexists; split; reflexivity.
  - congruence.
  - vm_compute; reflexivity.
  - discriminate.
  - discriminate.
Defined.

Lemma unit_symbol_unknown :
  violates_only (get_symbol_info (cached unit_exchange_info) "XYZUSDT")
    unit_filters (fz 2) None UnknownSymbol.
Proof.
  split; [reflexivity|].
  intros e' He'. destruct e'; simpl;
    first [congruence | discriminate | vm_compute; reflexivity].
Defined.

Lemma validate_input_logs_specific_error_witness :
  outc (validate_input (accepting_client unit_exchange_info) "BTCUSDT"
          (fz 1001) None [] (cached unit_exchange_info)) = Return false /\
  exists m, logged (events (validate_input (accepting_client unit_exchange_info)
                              "BTCUSDT" (fz 1001) None []
                              (cached unit_exchange_info))) = [(ERROR, m)]
            /\ error_of_record m = Some QuantityOutOfRange.
Proof.
  exact (validate_input_logs_specific_error
           (accepting_client unit_exchange_info) "BTCUSDT" (fz 1001) None []
           (cached unit_exchange_info) unit_filters QuantityOutOfRange
           eq_refl unit_quantity_above_max).
Defined.

(** C5 as stated fails: the returned value does not tell the violated
    condition.  An unknown symbol and a quantity above [maxQty] each
    violate exactly one condition, and both calls return [False]. *)
Lemma validate_input_result_not_specific :
  ~ exists decode : outcome bool -> validation_error,
      forall c sym q price h s F e,
        cache_ready c h s ->
        violates_only (get_symbol_info (cache_after c h s) sym) F q price e ->
        decode (outc (validate_input c sym q price h s)) = e.
Proof.
  intros [decode H].
  pose proof (H (accepting_client unit_exchange_info) "BTCUSDT" (fz 1001) None []
                (cached unit_exchange_info) unit_filters QuantityOutOfRange
                eq_refl unit_quantity_above_max) as H1.
  pose proof (H (accepting_client unit_exchange_info) "XYZUSDT" (fz 2) None []
                (cached unit_exchange_info) unit_filters UnknownSymbol
                eq_refl unit_symbol_unknown) as H2.
  vm_compute in H1, H2. congruence.
Qed.

(** C6: the validator computes on binary floats.  On the input of
    [test_valid_input] (quantity 0.002, price 65000.00, with the filters
    of the test), the quantity and the price are exact decimal multiples
    of the step and of the tick above the minimum, yet the tick check
    fails and the call returns [False]. *)
Theorem exact_tick_multiple_rejected :
  let r := validate_input (accepting_client mock_exchange_info) "BTCUSDT"
             (fd 2 3) (Some (fd 6500000 2)) [] fresh in
  decimal_multiple (dec 2 3) (dec 1 3) (dec 1 3) = true /\
  decimal_multiple (dec 6500000 2) (dec 1 2) (dec 1 2) = true /\
  fd 6500000 2 = fz 65000 /\
  outc r = Return false /\
  logged (events r) = [(ERROR, InvalidPriceTick "BTCUSDT" (fd 1 2))] /\
  PyFloat.rem (PyFloat.sub (fd 6500000 2) (fd 1 2)) (fd 1 2)
    = S754_finite false 5764607521079830 (-59).
Proof. repeat split; vm_compute; reflexivity. Qed.

Lemma price_given_zero z : PyFloat.is_zero z = true -> price_given (Some z) = None.
Proof. intros H. unfold price_given, PyFloat.truthy. rewrite H. reflexivity. Qed.

Lemma validate_checks_zero_price si sym q z :
  PyFloat.is_zero z = true ->
  validate_checks si sym q (Some z) = validate_checks si sym q None.
Proof.
  intros H. unfold validate_checks. rewrite (price_given_zero z H). reflexivity.
Qed.

(** C10 (amended): a call of the validator with a price equal to zero
    behaves as the call without a price: same result, same class state,
    same log records, so no price check runs; for a known symbol with
    filters and a quantity that passes the two quantity checks (range and
    step), it returns [True] and logs nothing, even when [minPrice] is
    positive. *)
Theorem zero_price_treated_as_absent c sym q z h s :
  PyFloat.is_zero z = true ->
  let r0 := validate_input c sym q (Some z) h s in
  let r := validate_input c sym q None h s in
  (outc r0 = outc r /\ cls_of r0 = cls_of r /\ logged (events r0) = logged (events r)) /\
  (forall si F,
     cache_ready c h s -> get_symbol_info (cache_after c h s) sym = Some si ->
     symbol_filters si = Some F ->
     within q (minQty F) (maxQty F) = true ->
     on_step q (minQty F) (stepSize F) = true ->
     outc r0 = Return true /\ logged (events r0) = []).
Proof.
  intros Hz r0 r. split.
  - unfold r0, r. rewrite !validate_input_run. simpl.
    destruct (outc (ExchangeInfo c h s)); unfold outc, cls_of, events; simpl;
      rewrite ?validate_checks_zero_price by assumption;
      rewrite ?logged_app; simpl; rewrite ?logged_app; simpl; auto.
  - intros si F I E HF R S.
    destruct (validate_input_known c sym q (Some z) h s I) as (Ho & _ & Hl).
    fold r0 in Ho, Hl. rewrite Ho, Hl, E.
    destruct (symbol_filters_not_nan si F HF) as (N1 & N2 & _).
    unfold eval, eval_events.
    rewrite (validate_checks_known si F sym q (Some z) [] fresh HF).
    rewrite (out_of_range_within q _ _ (within_true _ _ _ R) N1 N2), R.
    apply on_step_true in S as (_ & Z1 & Z2). rewrite Z1, Z2.
    rewrite (price_given_zero z Hz). split; reflexivity.
Qed.

Lemma zero_price_treated_as_absent_witness :
  outc (validate_input (accepting_client mock_exchange_info) "BTCUSDT"
          (fd 2 3) (Some (fz 0)) [] fresh) = Return true /\
  logged (events (validate_input (accepting_client mock_exchange_info) "BTCUSDT"
          (fd 2 3) (Some (fz 0)) [] fresh)) = [].
Proof.
  apply (proj2 (zero_price_treated_as_absent
                  (accepting_client mock_exchange_info) "BTCUSDT" (fd 2 3) (fz 0)
                  [] fresh eq_refl)
               _ mock_filters eq_refl eq_refl eq_refl);
    vm_compute; reflexivity.
Defined.

(** C10 as stated fails: a quantity within [[minQty, maxQty]] that is
    off the step grid is rejected, with a zero price as without. *)
Lemma zero_price_in_range_quantity_rejected :
  within (fd 25 4) (minQty mock_filters) (maxQty mock_filters) = true /\
  outc (validate_input (accepting_client mock_exchange_info) "BTCUSDT"
          (fd 25 4) (Some (fz 0)) [] fresh) = Return false.
Proof. split; vm_compute; reflexivity. Qed.

(* ================================================================= *)
(** ** What the strategies submit *)

Lemma submitted_app l1 l2 : submitted (l1 ++ l2) = submitted l1 ++ submitted l2.
Proof.
  induction l1 as [|e l1 IH]; simpl; auto. destruct e; simpl; congruence.
Qed.

Lemma validations_app l1 l2 :
  validations (l1 ++ l2) = validations l1 ++ validations l2.
Proof.
  induction l1 as [|e l1 IH]; simpl; auto. destruct e; simpl; congruence.
Qed.

Lemma submitted_internal l : Forall internal l -> submitted l = [].
Proof.
  induction 1 as [|e l He _ IH]; simpl; auto. destruct e; simpl in *; tauto.
Qed.

Lemma validations_internal l : Forall internal l -> validations l = [].
Proof.
  induction 1 as [|e l He _ IH]; simpl; auto. destruct e; simpl in *; tauto.
Qed.



Ltac read_trace :=
  repeat rewrite ?submitted_app, ?validations_app, ?map_app; simpl;
  repeat match goal with
  | H : Forall internal ?l |- context [submitted ?l] =>
      rewrite (submitted_internal l H)
  | H : Forall internal ?l |- context [validations ?l] =>
      rewrite (validations_internal l H)
  end; simpl.

Opaque validate_input.

Transparent validate_input.


Lemma eval_bind {A B} (m : M A) (k : A -> M B) :
  silent m -> (forall a, silent (k a)) ->
  eval (bind m k) =
  match eval m with
  | Return a => eval (k a)
  | Raise e => Raise e
  | Exit x => Exit x
  end.
Proof.
  intros Hm Hk. unfold eval at 1. unfold bind. rewrite (Hm [] fresh).
  destruct (eval m) as [a|e|x]; reflexivity.
Qed.







Opaque validate_input grid_order_price grid_order_side grid_price_step
  twap_quantity_per_order int_floordiv.

Transparent validate_input grid_order_price grid_order_side grid_price_step
  twap_quantity_per_order int_floordiv.



Opaque validate_input grid_order_price grid_order_side grid_price_step
  twap_quantity_per_order int_floordiv.






Transparent validate_input grid_order_price grid_order_side grid_price_step
  twap_quantity_per_order int_floordiv.

(* ================================================================= *)
(** ** The strategies *)











(* ================================================================= *)
(** ** More on the validator *)

Lemma validate_checks_outcomes si sym q p :
  match eval (validate_checks si sym q p) with
  | Return true => eval_events (validate_checks si sym q p) = []
  | Return false =>
      exists m, eval_events (validate_checks si sym q p) = [ELog ERROR m]
  | Raise e =>
      eval_events (validate_checks si sym q p) = [] /\
      (e = ZeroDivisionError \/ exists k, e = KeyError k)
  | Exit _ => False
  end.
Proof.
  unfold validate_checks, eval, eval_events.
  destruct si as [si|]; [|simpl; eauto].
  destruct (find_filter "PRICE_FILTER" (filters si)) as [pf|];
    [|simpl; eauto].
  destruct (find_filter "LOT_SIZE" (filters si)) as [lf|]; [|simpl; eauto].
  unfold float_field, float_mod, bind, ret, raise, log, emit.
  destruct (find _ (fields lf)); simpl; [|eauto].
  destruct (find _ (fields lf)); simpl; [|eauto].
  destruct (find _ (fields lf)); simpl; [|eauto].
  destruct (_ || _); simpl; [eauto|].
  destruct (PyFloat.is_zero _); simpl; [eauto|].
  destruct (PyFloat.ne0 _); simpl; [eauto|].
  destruct (price_given p); simpl; [|eauto].
  destruct (find _ (fields pf)); simpl; [|eauto].
  destruct (find _ (fields pf)); simpl; [|eauto].
  destruct (find _ (fields pf)); simpl; [|eauto].
  destruct (_ || _); simpl; [eauto|].
  destruct (PyFloat.is_zero _); simpl; [eauto|].
  destruct (PyFloat.ne0 _); simpl; eauto.
Qed.

Lemma logged_fetch r l : logged (EFetch r :: l) = logged l.
Proof. reflexivity. Qed.

Lemma logged_validate sym q p r : logged [EValidate sym q p r] = [].
Proof. reflexivity. Qed.

(** How a call of [validate_input] may end, and what it has logged then. *)
Lemma validate_input_outcomes c sym q p h s :
  let r := validate_input c sym q p h s in
  match outc r with
  | Return true => logged (events r) = []
  | Return false => exists m, logged (events r) = [(ERROR, m)]
  | Raise e =>
      logged (events r) = [] /\
      (e = ZeroDivisionError \/ (exists k, e = KeyError k) \/
       (e = AttributeError "handle_error" /\ raw_has_handle_error c = false /\
        _instance s = false /\ fetches (events r) = 1%nat))
  | Exit x =>
      x = 1 /\ logged (events r) = [] /\ raw_has_handle_error c = true /\
      _instance s = false /\ fetches (events r) = 1%nat
  end.
Proof.
  intros r; subst r. rewrite validate_input_run.
  assert (K : forall s' pre, logged pre = [] ->
    match eval (validate_checks (get_symbol_info s' sym) sym q p) with
    | Return true =>
        logged (pre ++ eval_events (validate_checks (get_symbol_info s' sym) sym q p)
                ++ [EValidate sym q p
                      (result_of (eval (validate_checks (get_symbol_info s' sym) sym q p)))])
          = []
    | Return false =>
        exists m,
        logged (pre ++ eval_events (validate_checks (get_symbol_info s' sym) sym q p)
                ++ [EValidate sym q p
                      (result_of (eval (validate_checks (get_symbol_info s' sym) sym q p)))])
          = [(ERROR, m)]
    | Raise e =>
        logged (pre ++ eval_events (validate_checks (get_symbol_info s' sym) sym q p)
                ++ [EValidate sym q p
                      (result_of (eval (validate_checks (get_symbol_info s' sym) sym q p)))])
          = [] /\ (e = ZeroDivisionError \/ exists k, e = KeyError k)
    | Exit _ => False
    end).
  { intros s' pre Hpre.
    pose proof (validate_checks_outcomes (get_symbol_info s' sym) sym q p) as O.
    destruct (eval (validate_checks (get_symbol_info s' sym) sym q p)) as [[|]|e|x];
      try (rewrite !logged_app, Hpre); simpl.
    - rewrite O. reflexivity.
    - destruct O as [m O]. rewrite O. exists m. reflexivity.
    - destruct O as [O E]. rewrite O. split; [reflexivity|exact E].
    - exact O. }
  destruct (_instance s) eqn:I.
  - rewrite (ExchangeInfo_initialised c h s I). cbv zeta. cbn [outc cls_of events fst snd].
    specialize (K s [] eq_refl).
    destruct (eval (validate_checks (get_symbol_info s sym) sym q p)) as [[|]|e|x];
      cbn [outc cls_of events fst snd]; try exact K.
    + destruct K as [K E]. split; [exact K|]. destruct E; auto.
    + destruct K.
  - rewrite (ExchangeInfo_uninitialised c h s I).
    destruct (futures_exchange_info c h) as [e|i].
    + destruct (raw_has_handle_error c) eqn:R; cbv zeta; cbn [outc cls_of events fst snd];
        simpl; auto 10.
    + cbv zeta. cbn [outc cls_of events fst snd].
      specialize (K (ClsState true (Some i)) [EFetch (inr i)] eq_refl).
      destruct (eval (validate_checks (get_symbol_info (ClsState true (Some i)) sym) sym q p))
        as [[|]|e|x]; cbn [outc cls_of events fst snd]; try exact K.
      * destruct K as [K E]. split; [exact K|]. destruct E; auto.
      * destruct K.
Qed.

(** X1: a call of [validate_input] that returns [True] logs nothing, one
    that returns [False] logs exactly one record, at level ERROR, and one
    that does not return logs nothing; the only exceptions that leave it
    are a division by zero, a missing key and, when the fetch failed, the
    missing [handle_error] of the raw client; it exits with code 1 only,
    on a failed fetch. *)
Theorem validate_input_explains_refusal c sym q p h s :
  let r := validate_input c sym q p h s in
  match outc r with
  | Return true => logged (events r) = []
  | Return false => exists m, logged (events r) = [(ERROR, m)]
  | Raise e =>
      logged (events r) = [] /\
      (e = ZeroDivisionError \/ (exists k, e = KeyError k) \/
       (e = AttributeError "handle_error" /\ raw_has_handle_error c = false /\
        _instance s = false /\ fetches (events r) = 1%nat))
  | Exit x =>
      x = 1 /\ logged (events r) = [] /\ raw_has_handle_error c = true /\
      _instance s = false /\ fetches (events r) = 1%nat
  end.
Proof. exact (validate_input_outcomes c sym q p h s). Qed.

Lemma validate_checks_missing_filter si sym q price h s :
  find_filter "PRICE_FILTER" (filters si) = None \/
  find_filter "LOT_SIZE" (filters si) = None ->
  validate_checks (Some si) sym q price h s
    = (Return false, s, [ELog ERROR (MissingFilters sym)]).
Proof.
  intros [E|E]; unfold validate_checks; rewrite E;
    [|destruct (find_filter "PRICE_FILTER" (filters si))]; reflexivity.
Qed.

Lemma validate_input_checks c sym q price h s :
  cache_ready c h s ->
  outc (validate_input c sym q price h s)
    = outc (validate_checks (get_symbol_info (cache_after c h s) sym) sym q price
              [] fresh) /\
  logged (events (validate_input c sym q price h s))
    = logged (events (validate_checks (get_symbol_info (cache_after c h s) sym)
                        sym q price [] fresh)).
Proof.
  intros R. destruct (validate_input_known c sym q price h s R) as [A [_ B]].
  split; [exact A | exact B].
Qed.

(** X2: a symbol that the exchange lists without a price filter or
    without a lot-size filter is refused whatever the quantity and the
    price are, also for an order without a price, with the single error
    record that the filters could not be retrieved. *)
Theorem missing_filter_refused c sym q price h s si :
  cache_ready c h s ->
  get_symbol_info (cache_after c h s) sym = Some si ->
  find_filter "PRICE_FILTER" (filters si) = None \/
  find_filter "LOT_SIZE" (filters si) = None ->
  outc (validate_input c sym q price h s) = Return false /\
  logged (events (validate_input c sym q price h s)) = [(ERROR, MissingFilters sym)].
Proof.
  intros R S F. destruct (validate_input_checks c sym q price h s R) as [A B].
  rewrite A, B, S, (validate_checks_missing_filter si sym q price [] fresh F).
  split; reflexivity.
Qed.

Lemma missing_filter_refused_witness :
  outc (validate_input (accepting_client lot_only_exchange_info) "BTCUSDT"
          (fz 2) None [] fresh) = Return false /\
  logged (events (validate_input (accepting_client lot_only_exchange_info) "BTCUSDT"
                    (fz 2) None [] fresh)) = [(ERROR, MissingFilters "BTCUSDT")].
Proof.
  apply (missing_filter_refused (accepting_client lot_only_exchange_info)
           "BTCUSDT" (fz 2) None [] fresh
           (SymbolInfo "BTCUSDT"
              [ Filter "LOT_SIZE"
                  [("minQty", dec 1 0); ("maxQty", dec 1000 0); ("stepSize", dec 1 0)] ])).
  - reflexivity.
  - reflexivity.
  - left. reflexivity.
Defined.

(** The checks on a symbol that has both filters, run step by step, each
    key being read when the code reads it. *)
Lemma validate_checks_by_key si pf lf sym q price h s :
  find_filter "PRICE_FILTER" (filters si) = Some pf ->
  find_filter "LOT_SIZE" (filters si) = Some lf ->
  validate_checks (Some si) sym q price h s =
  match field lf "minQty" with
  | None => (Raise (KeyError "minQty"), s, [])
  | Some a =>
  match field lf "maxQty" with
  | None => (Raise (KeyError "maxQty"), s, [])
  | Some b =>
  match field lf "stepSize" with
  | None => (Raise (KeyError "stepSize"), s, [])
  | Some st =>
    if PyFloat.ltb q a || PyFloat.gtb q b then
      (Return false, s, [ELog ERROR (InvalidQuantity q sym a b)])
    else if PyFloat.is_zero st then (Raise ZeroDivisionError, s, [])
    else if PyFloat.ne0 (PyFloat.rem (PyFloat.sub q a) st) then
      (Return false, s, [ELog ERROR (InvalidQuantityStep sym st)])
    else
      match price_given price with
      | None => (Return true, s, [])
      | Some p =>
        match field pf "minPrice" with
        | None => (Raise (KeyError "minPrice"), s, [])
        | Some lo =>
        match field pf "maxPrice" with
        | None => (Raise (KeyError "maxPrice"), s, [])
        | Some hi =>
        match field pf "tickSize" with
        | None => (Raise (KeyError "tickSize"), s, [])
        | Some t =>
          if PyFloat.ltb p lo || PyFloat.gtb p hi then
            (Return false, s, [ELog ERROR (InvalidPrice p sym lo hi)])
          else if PyFloat.is_zero t then (Raise ZeroDivisionError, s, [])
          else if PyFloat.ne0 (PyFloat.rem (PyFloat.sub p lo) t) then
            (Return false, s, [ELog ERROR (InvalidPriceTick sym t)])
          else (Return true, s, [])
        end end end
      end
  end end end.
Proof.
  intros Hp Hl. unfold validate_checks. rewrite Hp, Hl.
  unfold field, float_field, float_mod, bind, ret, raise, log, emit.
  destruct (find _ (fields lf)); simpl; [|reflexivity].
  destruct (find _ (fields lf)); simpl; [|reflexivity].
  destruct (find _ (fields lf)); simpl; [|reflexivity].
  destruct (_ || _); simpl; [reflexivity|].
  destruct (PyFloat.is_zero _); simpl; [reflexivity|].
  destruct (PyFloat.ne0 _); simpl; [reflexivity|].
  destruct (price_given price); simpl; [|reflexivity].
  destruct (find _ (fields pf)); simpl; [|reflexivity].
  destruct (find _ (fields pf)); simpl; [|reflexivity].
  destruct (find _ (fields pf)); simpl; [|reflexivity].
  destruct (_ || _); simpl; [reflexivity|].
  destruct (PyFloat.is_zero _); simpl; [reflexivity|].
  destruct (PyFloat.ne0 _); simpl; reflexivity.
Qed.

(** X3: when the lot-size filter of a symbol lacks one of its three keys,
    [validate_input] raises [KeyError] for the first missing key, whatever
    the quantity and the price are, and logs nothing. *)
Theorem missing_lot_size_key_raises c sym q price h s si pf lf key :
  cache_ready c h s ->
  get_symbol_info (cache_after c h s) sym = Some si ->
  find_filter "PRICE_FILTER" (filters si) = Some pf ->
  find_filter "LOT_SIZE" (filters si) = Some lf ->
  In key ["minQty"; "maxQty"; "stepSize"] -> field lf key = None ->
  exists k,
    outc (validate_input c sym q price h s) = Raise (KeyError k) /\
    In k ["minQty"; "maxQty"; "stepSize"] /\ field lf k = None /\
    logged (events (validate_input c sym q price h s)) = [].
Proof.
  intros R S Hp Hl K N. destruct (validate_input_checks c sym q price h s R) as [A B].
  rewrite A, B, S, (validate_checks_by_key si pf lf sym q price [] fresh Hp Hl).
  destruct (field lf "minQty") eqn:E1;
    [|exists "minQty"; simpl; auto].
  destruct (field lf "maxQty") eqn:E2;
    [|exists "maxQty"; simpl; auto].
  destruct (field lf "stepSize") eqn:E3;
    [|exists "stepSize"; simpl; auto 6].
  exfalso. simpl in K. destruct K as [<-|[<-|[<-|[]]]]; congruence.
Qed.

Lemma missing_lot_size_key_raises_witness :
  exists k,
    outc (validate_input (accepting_client stepless_exchange_info) "BTCUSDT"
            (fz 5000) None [] fresh) = Raise (KeyError k) /\
    In k ["minQty"; "maxQty"; "stepSize"] /\
    field (Filter "LOT_SIZE" [("minQty", dec 1 0); ("maxQty", dec 1000 0)]) k = None /\
    logged (events (validate_input (accepting_client stepless_exchange_info) "BTCUSDT"
                      (fz 5000) None [] fresh)) = [].
Proof.
  apply (missing_lot_size_key_raises (accepting_client stepless_exchange_info)
           "BTCUSDT" (fz 5000) None [] fresh
           (SymbolInfo "BTCUSDT"
              [ Filter "PRICE_FILTER"
                  [("minPrice", dec 1 0); ("maxPrice", dec 100000 0);
                   ("tickSize", dec 1 0)];
                Filter "LOT_SIZE" [("minQty", dec 1 0); ("maxQty", dec 1000 0)] ])
           (Filter "PRICE_FILTER"
              [("minPrice", dec 1 0); ("maxPrice", dec 100000 0); ("tickSize", dec 1 0)])
           (Filter "LOT_SIZE" [("minQty", dec 1 0); ("maxQty", dec 1000 0)])
           "stepSize").
  - reflexivity.
  - reflexivity.
  - reflexivity.
  - reflexivity.
  - simpl. auto.
  - reflexivity.
Defined.

Lemma quantity_checks_decide q a b st :
  PyFloat.is_nan a = false -> PyFloat.is_nan b = false ->
  (PyFloat.ltb q a || PyFloat.gtb q b = false /\ PyFloat.is_zero st = false /\
   PyFloat.ne0 (PyFloat.rem (PyFloat.sub q a) st) = false)
  <-> (within q a b = true /\ on_step q a st = true).
Proof.
  intros Na Nb. unfold on_step, PyFloat.ne0.
  destruct (PyFloat.is_nan q) eqn:Nq.
  - apply is_nan_true in Nq. subst q. rewrite within_nan, sub_nan_l, rem_nan.
    simpl. split; [intros (_ & _ & H) | intros [H _]]; discriminate.
  - rewrite (out_of_range_within q a b Nq Na Nb).
    destruct (within q a b), (PyFloat.is_zero st), (PyFloat.eqb _ PyFloat.zero);
      simpl; intuition congruence.
Qed.

(** X4: the keys of the price filter are read only for an order with a
    price that is not zero and whose quantity passed: without such a price
    the quantity alone decides, even when the price filter has no key,
    and with one a missing key raises [KeyError]. *)
Theorem price_filter_read_for_priced_orders_only c sym q price h s si pf lf a b st :
  cache_ready c h s ->
  get_symbol_info (cache_after c h s) sym = Some si ->
  find_filter "PRICE_FILTER" (filters si) = Some pf ->
  find_filter "LOT_SIZE" (filters si) = Some lf ->
  field lf "minQty" = Some a -> field lf "maxQty" = Some b ->
  field lf "stepSize" = Some st ->
  let r := validate_input c sym q price h s in
  (price_given price = None ->
     (outc r = Return true <-> within q a b = true /\ on_step q a st = true)) /\
  (forall p key, price_given price = Some p ->
     within q a b = true -> on_step q a st = true ->
     In key ["minPrice"; "maxPrice"; "tickSize"] -> field pf key = None ->
     exists k, outc r = Raise (KeyError k) /\
               In k ["minPrice"; "maxPrice"; "tickSize"] /\ field pf k = None).
Proof.
  intros R S Hp Hl Ea Eb Est r. subst r.
  destruct (validate_input_checks c sym q price h s R) as [A _].
  rewrite A, S, (validate_checks_by_key si pf lf sym q price [] fresh Hp Hl).
  rewrite Ea, Eb, Est.
  pose proof (quantity_checks_decide q a b st
                (field_not_nan lf _ a Ea) (field_not_nan lf _ b Eb)) as D.
  split.
  - intros P. rewrite P. rewrite <- D.
    destruct (_ || _); [simpl; intuition discriminate|].
    destruct (PyFloat.is_zero st); [simpl; intuition discriminate|].
    destruct (PyFloat.ne0 _); simpl; intuition discriminate.
  - intros p key P W O K N. rewrite P.
    destruct (proj2 D (conj W O)) as (D1 & D2 & D3). rewrite D1, D2, D3.
    destruct (field pf "minPrice") eqn:E1;
      [|exists "minPrice"; simpl; auto].
    destruct (field pf "maxPrice") eqn:E2;
      [|exists "maxPrice"; simpl; auto].
    destruct (field pf "tickSize") eqn:E3;
      [|exists "tickSize"; simpl; auto 6].
    exfalso. simpl in K. destruct K as [<-|[<-|[<-|[]]]]; congruence.
Qed.

Lemma price_filter_read_for_priced_orders_only_witness :
  (outc (validate_input (accepting_client priceless_exchange_info) "BTCUSDT"
           (fz 2) None [] fresh) = Return true
   <-> within (fz 2) (fd 1 0) (fd 1000 0) = true /\
       on_step (fz 2) (fd 1 0) (fd 1 0) = true) /\
  exists k,
    outc (validate_input (accepting_client priceless_exchange_info) "BTCUSDT"
            (fz 2) (Some (fz 100)) [] fresh) = Raise (KeyError k) /\
    In k ["minPrice"; "maxPrice"; "tickSize"] /\
    field (Filter "PRICE_FILTER" []) k = None.
Proof.
  split.
  - apply (proj1 (price_filter_read_for_priced_orders_only
             (accepting_client priceless_exchange_info) "BTCUSDT" (fz 2) None [] fresh
             (SymbolInfo "BTCUSDT"
                [ Filter "PRICE_FILTER" [];
                  Filter "LOT_SIZE"
                    [("minQty", dec 1 0); ("maxQty", dec 1000 0);
                     ("stepSize", dec 1 0)] ])
             (Filter "PRICE_FILTER" [])
             (Filter "LOT_SIZE"
                [("minQty", dec 1 0); ("maxQty", dec 1000 0); ("stepSize", dec 1 0)])
             (fd 1 0) (fd 1000 0) (fd 1 0)
             eq_refl eq_refl eq_refl eq_refl eq_refl eq_refl eq_refl)).
    reflexivity.
  - apply (proj2 (price_filter_read_for_priced_orders_only
             (accepting_client priceless_exchange_info) "BTCUSDT" (fz 2)
             (Some (fz 100)) [] fresh
             (SymbolInfo "BTCUSDT"
                [ Filter "PRICE_FILTER" [];
                  Filter "LOT_SIZE"
                    [("minQty", dec 1 0); ("maxQty", dec 1000 0);
                     ("stepSize", dec 1 0)] ])
             (Filter "PRICE_FILTER" [])
             (Filter "LOT_SIZE"
                [("minQty", dec 1 0); ("maxQty", dec 1000 0); ("stepSize", dec 1 0)])
             (fd 1 0) (fd 1000 0) (fd 1 0)
             eq_refl eq_refl eq_refl eq_refl eq_refl eq_refl eq_refl)
           (fz 100) "minPrice").
    + reflexivity.
    + vm_compute. reflexivity.
    + vm_compute. reflexivity.
    + simpl. auto.
    + reflexivity.
Defined.

(** X5: a step size of zero makes [validate_input] raise
    [ZeroDivisionError] for every quantity within the range, and a tick
    size of zero for every priced order whose quantity passed and whose
    price is within the range; nothing is logged. *)
Theorem zero_step_raises c sym q price h s si F :
  cache_ready c h s ->
  get_symbol_info (cache_after c h s) sym = Some si ->
  symbol_filters si = Some F ->
  let r := validate_input c sym q price h s in
  (PyFloat.is_zero (stepSize F) = true ->
   within q (minQty F) (maxQty F) = true ->
   outc r = Raise ZeroDivisionError /\ logged (events r) = []) /\
  (PyFloat.is_zero (tickSize F) = true ->
   within q (minQty F) (maxQty F) = true ->
   on_step q (minQty F) (stepSize F) = true ->
   forall p, price_given price = Some p ->
   within p (minPrice F) (maxPrice F) = true ->
   outc r = Raise ZeroDivisionError /\ logged (events r) = []).
Proof.
  intros R S HF r. subst r.
  destruct (validate_input_checks c sym q price h s R) as [A B].
  rewrite A, B, S, (validate_checks_known si F sym q price [] fresh HF).
  destruct (symbol_filters_not_nan si F HF) as (N1 & N2 & N3 & N4).
  split.
  - intros Z W. rewrite (out_of_range_within q _ _ (within_true _ _ _ W) N1 N2), W, Z.
    split; reflexivity.
  - intros Z W O p P Wp.
    destruct (proj2 (quantity_checks_decide q _ _ _ N1 N2) (conj W O)) as (D1 & D2 & D3).
    rewrite D1, D2, D3, P.
    rewrite (out_of_range_within p _ _ (within_true _ _ _ Wp) N3 N4), Wp, Z.
    split; reflexivity.
Qed.

Lemma zero_step_raises_witness :
  outc (validate_input (accepting_client zero_step_exchange_info) "BTCUSDT"
          (fz 2) None [] fresh) = Raise ZeroDivisionError /\
  logged (events (validate_input (accepting_client zero_step_exchange_info) "BTCUSDT"
                    (fz 2) None [] fresh)) = [].
Proof.
  apply (proj1 (zero_step_raises (accepting_client zero_step_exchange_info)
           "BTCUSDT" (fz 2) None [] fresh
           (SymbolInfo "BTCUSDT"
              [ Filter "PRICE_FILTER"
                  [("minPrice", dec 1 0); ("maxPrice", dec 100000 0);
                   ("tickSize", dec 0 0)];
                Filter "LOT_SIZE"
                  [("minQty", dec 1 0); ("maxQty", dec 1000 0); ("stepSize", dec 0 0)] ])
           (Build_SymbolFilters (fd 1 0) (fd 1000 0) (fd 0 0)
                                (fd 1 0) (fd 100000 0) (fd 0 0))
           eq_refl eq_refl eq_refl)).
  - reflexivity.
  - vm_compute. reflexivity.
Defined.

Lemma validate_checks_nan_quantity si sym price :
  eval (validate_checks si sym S754_nan price) <> Return true.
Proof.
  unfold eval. destruct si as [si|]; [|simpl; discriminate].
  destruct (find_filter "PRICE_FILTER" (filters si)) as [pf|] eqn:Hp;
    [|rewrite validate_checks_missing_filter by auto; simpl; discriminate].
  destruct (find_filter "LOT_SIZE" (filters si)) as [lf|] eqn:Hl;
    [|rewrite validate_checks_missing_filter by auto; simpl; discriminate].
  rewrite (validate_checks_by_key si pf lf sym S754_nan price [] fresh Hp Hl).
  destruct (field lf "minQty"); [|simpl; discriminate].
  destruct (field lf "maxQty"); [|simpl; discriminate].
  destruct (field lf "stepSize"); [|simpl; discriminate].
  rewrite sub_nan_l, rem_nan.
  destruct (_ || _); [simpl; discriminate|].
  destruct (PyFloat.is_zero _); simpl; discriminate.
Qed.

Lemma validate_checks_nan_price si sym q :
  eval (validate_checks si sym q (Some S754_nan)) <> Return true.
Proof.
  unfold eval. destruct si as [si|]; [|simpl; discriminate].
  destruct (find_filter "PRICE_FILTER" (filters si)) as [pf|] eqn:Hp;
    [|rewrite validate_checks_missing_filter by auto; simpl; discriminate].
  destruct (find_filter "LOT_SIZE" (filters si)) as [lf|] eqn:Hl;
    [|rewrite validate_checks_missing_filter by auto; simpl; discriminate].
  rewrite (validate_checks_by_key si pf lf sym q (Some S754_nan) [] fresh Hp Hl).
  destruct (field lf "minQty"); [|simpl; discriminate].
  destruct (field lf "maxQty"); [|simpl; discriminate].
  destruct (field lf "stepSize"); [|simpl; discriminate].
  destruct (_ || _); [simpl; discriminate|].
  destruct (PyFloat.is_zero _); [simpl; discriminate|].
  destruct (PyFloat.ne0 _); [simpl; discriminate|].
  change (price_given (Some S754_nan)) with (Some S754_nan).
  destruct (field pf "minPrice"); [|simpl; discriminate].
  destruct (field pf "maxPrice"); [|simpl; discriminate].
  destruct (field pf "tickSize"); [|simpl; discriminate].
  rewrite sub_nan_l, rem_nan.
  destruct (_ || _); [simpl; discriminate|].
  destruct (PyFloat.is_zero _); simpl; discriminate.
Qed.

Lemma validate_input_returns c sym q price h s b :
  outc (validate_input c sym q price h s) = Return b ->
  exists s', eval (validate_checks (get_symbol_info s' sym) sym q price) = Return b.
Proof.
  rewrite validate_input_run. cbv zeta.
  destruct (outc (ExchangeInfo c h s)); cbn [outc fst]; try discriminate.
  intros E. eauto.
Qed.

(** X6: [validate_input] never returns [True] for a quantity that is NaN,
    nor for a price that is NaN, whatever the exchange information is. *)
Theorem nan_never_accepted c sym h s :
  (forall price, outc (validate_input c sym S754_nan price h s) <> Return true) /\
  (forall q, outc (validate_input c sym q (Some S754_nan) h s) <> Return true).
Proof.
  split.
  - intros price E. destruct (validate_input_returns _ _ _ _ _ _ _ E) as [s' E'].
    exact (validate_checks_nan_quantity _ _ _ E').
  - intros q E. destruct (validate_input_returns _ _ _ _ _ _ _ E) as [s' E'].
    exact (validate_checks_nan_price _ _ _ E').
Qed.

Lemma symbol_filters_steps_not_nan si F :
  symbol_filters si = Some F ->
  PyFloat.is_nan (stepSize F) = false /\ PyFloat.is_nan (tickSize F) = false.
Proof.
  unfold symbol_filters.
  destruct (find_filter "PRICE_FILTER" (filters si)) as [pf|]; [|discriminate].
  destruct (find_filter "LOT_SIZE" (filters si)) as [lf|]; [|discriminate].
  destruct (field lf "minQty") as [a|] eqn:Ea; [|discriminate].
  destruct (field lf "maxQty") as [b|] eqn:Eb; [|discriminate].
  destruct (field lf "stepSize") as [c|] eqn:Ec; [|discriminate].
  destruct (field pf "minPrice") as [d|] eqn:Ed; [|discriminate].
  destruct (field pf "maxPrice") as [e|] eqn:Ee; [|discriminate].
  destruct (field pf "tickSize") as [f|] eqn:Ef; [|discriminate].
  intros [= <-]. simpl.
  split; eapply field_not_nan; eassumption.
Qed.

Lemma SFcompare_refl x : PyFloat.is_nan x = false -> SFcompare x x = Some Eq.
Proof.
  destruct x as [s|s| |s m e]; simpl; try discriminate; intros _.
  - destruct s; reflexivity.
  - destruct s; reflexivity.
  - rewrite Z.compare_refl.
    change (Pos.compare_cont Eq m m) with (Pos.compare m m).
    rewrite Pos.compare_refl. destruct s; reflexivity.
Qed.

Lemma leb_refl x : PyFloat.is_nan x = false -> PyFloat.leb x x = true.
Proof.
  intros N. unfold PyFloat.leb, SFleb. rewrite (SFcompare_refl x N). reflexivity.
Qed.

Lemma sub_diag x : is_finite x = true -> PyFloat.sub x x = S754_zero false.
Proof.
  destruct x as [s|s| |s m e]; simpl; try discriminate; intros _.
  - destruct s; reflexivity.
  - unfold PyFloat.sub, SFsub. rewrite Z.sub_diag. reflexivity.
Qed.

Lemma rem_zero_l step :
  PyFloat.is_nan step = false -> PyFloat.is_zero step = false ->
  PyFloat.rem (S754_zero false) step = S754_zero (PyFloat.sign_bit step).
Proof.
  destruct step as [s|s| |s m e]; simpl; try discriminate; intros _ _; reflexivity.
Qed.

Lemma on_step_base x step :
  is_finite x = true -> PyFloat.is_nan step = false -> PyFloat.is_zero step = false ->
  on_step x x step = true.
Proof.
  intros F N Z. unfold on_step. rewrite Z, (sub_diag x F), (rem_zero_l step N Z).
  reflexivity.
Qed.

Lemma is_finite_not_nan x : is_finite x = true -> PyFloat.is_nan x = false.
Proof. destruct x; simpl; congruence. Qed.

Lemma within_base x hi :
  is_finite x = true -> PyFloat.leb x hi = true -> within x x hi = true.
Proof.
  intros F L. unfold within. rewrite (leb_refl x (is_finite_not_nan x F)), L.
  reflexivity.
Qed.

(** X7: the smallest order always validates: for a symbol with minimum
    quantity not above the maximum and a step size that is not zero, the
    minimum quantity is accepted for an order without price, and with the
    minimum price (not zero, not above the maximum, tick size not zero) as
    its price. *)
Theorem minimum_order_accepted c sym h s si F :
  cache_ready c h s ->
  get_symbol_info (cache_after c h s) sym = Some si ->
  symbol_filters si = Some F ->
  is_finite (minQty F) = true -> PyFloat.leb (minQty F) (maxQty F) = true ->
  PyFloat.is_zero (stepSize F) = false ->
  outc (validate_input c sym (minQty F) None h s) = Return true /\
  (is_finite (minPrice F) = true -> PyFloat.is_zero (minPrice F) = false ->
   PyFloat.leb (minPrice F) (maxPrice F) = true ->
   PyFloat.is_zero (tickSize F) = false ->
   outc (validate_input c sym (minQty F) (Some (minPrice F)) h s) = Return true).
Proof.
  intros R S HF Fq Lq Zs.
  destruct (symbol_filters_steps_not_nan si F HF) as [Ns Nt].
  assert (Q : within (minQty F) (minQty F) (maxQty F) = true) by (apply within_base; auto).
  assert (O : on_step (minQty F) (minQty F) (stepSize F) = true)
    by (apply on_step_base; auto).
  split.
  - destruct (validate_input_checks c sym (minQty F) None h s R) as [A _].
    rewrite A, S. apply (validate_checks_accepts si F sym _ None HF).
    unfold spec_validate. rewrite Q, O. reflexivity.
  - intros Fp Zp Lp Zt.
    destruct (validate_input_checks c sym (minQty F) (Some (minPrice F)) h s R) as [A _].
    rewrite A, S. apply (validate_checks_accepts si F sym _ _ HF).
    unfold spec_validate, price_given, PyFloat.truthy. rewrite Q, O, Zp. simpl.
    rewrite (within_base _ _ Fp Lp), (on_step_base _ _ Fp Nt Zt). reflexivity.
Qed.

Lemma minimum_order_accepted_witness :
  outc (validate_input (accepting_client mock_exchange_info) "BTCUSDT"
          (fd 1 3) None [] fresh) = Return true /\
  outc (validate_input (accepting_client mock_exchange_info) "BTCUSDT"
          (fd 1 3) (Some (fd 1 2)) [] fresh) = Return true.
Proof.
  destruct (minimum_order_accepted (accepting_client mock_exchange_info) "BTCUSDT"
              [] fresh
              (SymbolInfo "BTCUSDT"
                 [ Filter "PRICE_FILTER"
                     [("minPrice", dec 1 2); ("maxPrice", dec 100000 0);
                      ("tickSize", dec 1 2)];
                   Filter "LOT_SIZE"
                     [("minQty", dec 1 3); ("maxQty", dec 1000 0);
                      ("stepSize", dec 1 3)] ])
              mock_filters eq_refl eq_refl eq_refl eq_refl eq_refl eq_refl) as [A B].
  split; [exact A|]. apply B; reflexivity.
Defined.

(* ================================================================= *)
(** ** More on the cache *)

(** X8: the verdict of [validate_input] never changes during a process:
    once a call had the exchange information at hand, a later call with
    the same arguments, after any calls in between and whatever the
    exchange would answer by then, returns the same result and logs the
    same records without a fetch; when the first call fetched the
    information, it is that answer that stays cached. *)
Theorem verdict_never_changes c sym q p h s calls h1 h2 :
  cache_ready c h s ->
  let r1 := validate_input c sym q p h s in
  let r2 := validate_input c sym q p h2 (cls_of (process c calls h1 (cls_of r1))) in
  outc r2 = outc r1 /\ logged (events r2) = logged (events r1) /\
  fetches (events r2) = 0%nat /\ cls_of r2 = cls_of r1 /\
  (forall i, _instance s = false -> futures_exchange_info c h = inr i ->
     cls_of r2 = cached i).
Proof.
  intros R r1 r2. subst r1 r2.
  destruct (validate_input_known c sym q p h s R) as (A & B & C).
  pose proof (validate_input_sets_instance c sym q p h s) as I.
  rewrite (proj2 (thrifty_process c calls h1 _) I).
  rewrite (validate_input_initialised c sym q p h2 _ I).
  cbv zeta. cbn [outc cls_of events fst snd].
  rewrite A, B, C. rewrite !logged_app, fetches_app.
  rewrite (fetches_logs _ (proj1 (constant_validate_checks _ sym q p))).
  repeat split.
  - simpl. apply app_nil_r.
  - intros i I0 E. unfold cache_after.
    rewrite (ExchangeInfo_uninitialised c h s I0), E. reflexivity.
Qed.

Lemma verdict_never_changes_witness :
  outc (validate_input unit_client "BTCUSDT" (fz 2) None [ESleep 1]
          (cls_of (process unit_client
                     [CallStrategy (Market "BTCUSDT" "BUY" (fz 2)); CallLookup "XYZUSDT"]
                     [] (cls_of (validate_input unit_client "BTCUSDT" (fz 2) None
                                   [] fresh)))))
    = outc (validate_input unit_client "BTCUSDT" (fz 2) None [] fresh).
Proof.
  exact (proj1 (verdict_never_changes unit_client "BTCUSDT" (fz 2) None [] fresh
                  [CallStrategy (Market "BTCUSDT" "BUY" (fz 2)); CallLookup "XYZUSDT"]
                  [] [ESleep 1] eq_refl)).
Defined.

(* ================================================================= *)
(** ** A fetch that fails *)

Lemma refused_nil : refused [].
Proof. intros ? ? ? ? []. Qed.

Lemma refused_app l1 l2 : refused (l1 ++ l2) <-> refused l1 /\ refused l2.
Proof.
  unfold refused. split.
  - intros H. split; intros; eapply H; apply in_app_iff; eauto.
  - intros [H1 H2] sym q p r I. apply in_app_iff in I. destruct I; eauto.
Qed.

Lemma refused_internal l : Forall internal l -> refused l.
Proof.
  intros H sym q p r I. exfalso. exact (internal_no_validate l sym q p r H I).
Qed.

Lemma stuck_ret {A} (a : A) : stuck (ret a).
Proof. intros h. repeat split; [apply refused_nil | discriminate]. Qed.

Lemma stuck_raise {A} (e : exn) : stuck (@raise A e).
Proof. intros h. repeat split; [apply refused_nil | discriminate]. Qed.

Lemma stuck_log l m : stuck (log l m).
Proof.
  intros h. repeat split; [|discriminate].
  intros ? ? ? ? [I|[]]. discriminate I.
Qed.

Lemma stuck_sleep n : stuck (sleep n).
Proof.
  intros h. repeat split; [|discriminate].
  intros ? ? ? ? [I|[]]. discriminate I.
Qed.

Lemma stuck_handle_error e : stuck (handle_error e).
Proof. destruct (handle_error_log e) as [m ->]. apply stuck_log. Qed.

Lemma stuck_silent {A} (m : M A) :
  silent m -> (forall x, eval m <> Exit x) -> stuck m.
Proof.
  intros H N h. rewrite (H h failed_cache).
  repeat split; [apply refused_nil | exact N].
Qed.

Lemma no_exit_bind {A B} (m : M A) (k : A -> M B) :
  silent m -> (forall a, silent (k a)) ->
  (forall x, eval m <> Exit x) -> (forall a x, eval (k a) <> Exit x) ->
  forall x, eval (bind m k) <> Exit x.
Proof.
  intros Sm Sk Nm Nk x. rewrite (eval_bind m k Sm Sk).
  destruct (eval m) eqn:E; [apply Nk | discriminate | exact (False_ind _ (Nm _ eq_refl))].
Qed.

Lemma no_exit_float_of_int n x : eval (float_of_int n) <> Exit x.
Proof. unfold eval, float_of_int. destruct (PyFloat.of_Z n); discriminate. Qed.

Lemma no_exit_float_div a b x : eval (float_div a b) <> Exit x.
Proof. unfold eval, float_div. destruct (PyFloat.is_zero b); discriminate. Qed.

Lemma no_exit_int_floordiv a b x : eval (int_floordiv a b) <> Exit x.
Proof. unfold eval, int_floordiv. destruct (b =? 0); discriminate. Qed.

Lemma no_exit_ret {A} (a : A) x : eval (ret a) <> Exit x.
Proof. discriminate. Qed.

Ltac no_exit :=
  repeat first
    [ apply no_exit_float_of_int | apply no_exit_float_div
    | apply no_exit_int_floordiv | apply no_exit_ret
    | apply no_exit_bind; [| intros ? | | intros ?]
    | silent_step ].

Lemma no_exit_grid_order_price lo st i x : eval (grid_order_price lo st i) <> Exit x.
Proof. unfold grid_order_price. revert x. no_exit. Qed.

Lemma no_exit_grid_order_side lo hi p x : eval (grid_order_side lo hi p) <> Exit x.
Proof. unfold grid_order_side. revert x. no_exit. Qed.

Lemma no_exit_grid_price_step lo hi n x : eval (grid_price_step lo hi n) <> Exit x.
Proof. unfold grid_price_step. revert x. no_exit. Qed.

Lemma no_exit_twap_quantity_per_order q n x :
  eval (twap_quantity_per_order q n) <> Exit x.
Proof. unfold twap_quantity_per_order. revert x. no_exit. Qed.

Lemma stuck_bind {A B} (m : M A) (k : A -> M B) :
  stuck m -> (forall a, stuck (k a)) -> stuck (bind m k).
Proof.
  intros Hm Hk h. destruct (Hm h) as (S1 & R1 & N1). rewrite bind_run.
  destruct (outc (m h failed_cache)) as [a|e|x] eqn:O.
  - cbv zeta. rewrite S1. destruct (Hk a (h ++ events (m h failed_cache))) as (S2 & R2 & N2).
    cbn [outc cls_of events fst snd]. repeat split; auto.
    apply refused_app. auto.
  - cbn [outc cls_of events fst snd]. repeat split; auto. discriminate.
  - exfalso. exact (N1 x eq_refl).
Qed.

Lemma stuck_try_except {A} (m : M A) (k : exn -> M A) :
  stuck m -> (forall e, stuck (k e)) -> stuck (try_except m k).
Proof.
  intros Hm Hk h. destruct (Hm h) as (S1 & R1 & N1). rewrite try_except_run.
  destruct (outc (m h failed_cache)) as [a|e|x] eqn:O.
  - repeat split; auto. rewrite O. discriminate.
  - cbv zeta. rewrite S1. destruct (Hk e (h ++ events (m h failed_cache))) as (S2 & R2 & N2).
    cbn [outc cls_of events fst snd]. repeat split; auto.
    apply refused_app. auto.
  - exfalso. exact (N1 x eq_refl).
Qed.

Lemma validate_input_failed_cache c sym q p h :
  validate_input c sym q p h failed_cache
    = (Return false, failed_cache,
       [ELog ERROR (InvalidSymbol sym); EValidate sym q p (Some false)]).
Proof. rewrite (validate_input_initialised c sym q p h failed_cache eq_refl). reflexivity. Qed.

Lemma stuck_validate_input c sym q p : stuck (validate_input c sym q p).
Proof.
  intros h. rewrite validate_input_failed_cache. repeat split; [|discriminate].
  intros ? ? ? ? [I|[I|[]]]; [discriminate I|]. injection I. auto.
Qed.

Lemma stuck_lookup_symbol c sym : stuck (lookup_symbol c sym).
Proof.
  intros h. rewrite (lookup_symbol_initialised c sym h failed_cache eq_refl).
  repeat split; [apply refused_nil | discriminate].
Qed.

Lemma stuck_call_futures_create_order c o : stuck (call_futures_create_order c o).
Proof.
  intros h. unfold call_futures_create_order.
  destruct (futures_create_order c h o); (repeat split; [|discriminate]);
    intros ? ? ? ? [I|[]]; discriminate I.
Qed.

Ltac stuck_step :=
  first
    [ apply stuck_ret | apply stuck_raise | apply stuck_log
    | apply stuck_sleep | apply stuck_handle_error
    | apply stuck_validate_input | apply stuck_call_futures_create_order
    | apply stuck_lookup_symbol
    | apply stuck_silent;
      [ first [ apply silent_grid_order_price | apply silent_grid_order_side
              | apply silent_grid_price_step | apply silent_twap_quantity_per_order
              | apply silent_int_floordiv ]
      | intros ?;
        first [ apply no_exit_grid_order_price | apply no_exit_grid_order_side
              | apply no_exit_grid_price_step | apply no_exit_twap_quantity_per_order
              | apply no_exit_int_floordiv ] ]
    | apply stuck_bind; [| intros ?]
    | apply stuck_try_except; [| intros ?]
    | match goal with
      | H : _ |- _ => apply H
      | |- stuck (if ?b then _ else _) => destruct b
      | |- stuck (match ?x with _ => _ end) => destruct x
      end ].

Lemma stuck_twap_loop c sym side q n iv indices :
  stuck (twap_loop c sym side q n iv indices).
Proof.
  induction indices as [|i rest IH]; simpl; repeat stuck_step.
Qed.

Lemma stuck_grid_loop c sym lo hi st q levels :
  forall orders, stuck (grid_loop c sym lo hi st q levels orders).
Proof.
  induction levels as [|i rest IH]; intros orders; simpl; repeat stuck_step.
Qed.

Lemma stuck_invoke c i : stuck (invoke c i).
Proof.
  destruct i; simpl;
    unfold place_market_order, place_limit_order, place_stop_limit_order,
      place_oco_order, oco_validation_failed, place_twap_order, place_grid_orders;
    repeat first [ apply stuck_twap_loop | apply stuck_grid_loop | stuck_step ].
Qed.

Lemma stuck_run_call c k : stuck (run_call c k).
Proof. destruct k; simpl; [apply stuck_invoke | |]; repeat stuck_step. Qed.

(** Where every validation is refused, an orderly trace has no gateway
    call. *)
Lemma orderly_refused seen evs :
  orderly_from seen evs -> refused (seen ++ evs) -> submitted evs = [].
Proof.
  revert seen. induction evs as [|e tl IH]; intros seen O R; [reflexivity|].
  destruct O as [O1 O2].
  assert (R' : refused ((seen ++ [e]) ++ tl)) by (rewrite <- app_assoc; exact R).
  destruct e; simpl; try exact (IH _ O2 R').
  exfalso. destruct O1 as [[p [I _]] _].
  assert (X : Some true = Some false)
    by (apply (R (o_symbol o) (o_quantity o) p (Some true)); apply in_app_iff; left;
        exact I).
  discriminate X.
Qed.

Lemma run_call_orderly c k h s : orderly_from [] (events (run_call c k h s)).
Proof.
  destruct k as [i|sym q p|sym]; simpl.
  - apply invoke_orderly.
  - rewrite bind_ret_events.
    destruct (validate_input_events c sym q p h s) as [pre [-> Hpre]].
    apply orderly_from_app. split; [apply orderly_from_quiet; exact Hpre|].
    simpl. split; [|exact I]. apply all_passed_internal, Hpre.
  - rewrite bind_ret_events. rewrite lookup_symbol_run. cbv zeta.
    destruct (ExchangeInfo_events c h s) as [E|[r [E _]]];
      destruct (outc (ExchangeInfo c h s)); cbn [events snd]; rewrite E; simpl; auto.
Qed.

Lemma try_except_ret_no_raise (m : M unit) h s e :
  outc (try_except m (fun _ => ret tt) h s) <> Raise e.
Proof.
  rewrite try_except_run. destruct (outc (m h s)) eqn:O.
  - rewrite O. discriminate.
  - discriminate.
  - rewrite O. discriminate.
Qed.

Lemma process_failed_cache c calls :
  forall h,
    process c calls h failed_cache
      = (Return tt, failed_cache, events (process c calls h failed_cache)) /\
    submitted (events (process c calls h failed_cache)) = [] /\
    refused (events (process c calls h failed_cache)).
Proof.
  induction calls as [|k rest IH]; intros h; [repeat split; apply refused_nil|].
  simpl. rewrite bind_run.
  assert (St : stuck (try_except (run_call c k) (fun _ => ret tt)))
    by (apply stuck_try_except; [apply stuck_run_call | intros _; apply stuck_ret]).
  destruct (St h) as (S1 & R1 & N1).
  assert (Sub : submitted (events (try_except (run_call c k) (fun _ => ret tt)
                                     h failed_cache)) = []).
  { rewrite try_except_run.
    pose proof (run_call_orderly c k h failed_cache) as O.
    destruct (stuck_run_call c k h) as (_ & R0 & _).
    pose proof (orderly_refused [] _ O R0) as Z.
    destruct (outc (run_call c k h failed_cache)); cbn [events snd]; auto.
    rewrite submitted_app, Z. reflexivity. }
  destruct (outc (try_except (run_call c k) (fun _ => ret tt) h failed_cache))
    as [[]|e|x] eqn:O.
  - cbv zeta. rewrite S1.
    destruct (IH (h ++ events (try_except (run_call c k) (fun _ => ret tt)
                                 h failed_cache))) as (P1 & P2 & P3).
    rewrite P1. cbn [outc cls_of events fst snd].
    repeat split.
    + rewrite submitted_app, Sub, P2. reflexivity.
    + apply refused_app. auto.
  - exfalso. exact (try_except_ret_no_raise _ _ _ _ O).
  - exfalso. exact (N1 x eq_refl).
Qed.

(** X9: a first fetch that fails on a raw client without [handle_error]
    is never retried: that call of [validate_input] raises
    [AttributeError] and leaves the class with an instance that holds no
    information; from then on, whatever the process calls, nothing is
    fetched, every validation returns [False], no order reaches the
    gateway, and the class stays as it is. *)
Theorem failed_fetch_never_retried c sym q p h e :
  raw_has_handle_error c = false -> futures_exchange_info c h = inl e ->
  let r := validate_input c sym q p h fresh in
  outc r = Raise (AttributeError "handle_error") /\ cls_of r = failed_cache /\
  forall calls h1,
    let r' := process c calls h1 (cls_of r) in
    outc r' = Return tt /\ cls_of r' = failed_cache /\
    fetches (events r') = 0%nat /\ refused (events r') /\
    submitted (events r') = [].
Proof.
  intros Hh Hf r. subst r. rewrite validate_input_run.
  rewrite (ExchangeInfo_uninitialised c h fresh eq_refl), Hf, Hh.
  cbv zeta. cbn [outc cls_of events fst snd].
  split; [reflexivity|]. split; [reflexivity|].
  intros calls h1. change (ClsState true (_info fresh)) with failed_cache.
  destruct (process_failed_cache c calls h1) as (P1 & P2 & P3).
  pose proof (thrifty_process c calls h1 failed_cache) as [T _].
  rewrite P1 in *. cbn [outc cls_of events fst snd] in *.
  repeat split; auto.
  change (budget failed_cache) with 0%nat in T. lia.
Qed.

Lemma failed_fetch_never_retried_witness :
  outc (validate_input (failing_client false) "BTCUSDT" (fz 2) None [] fresh)
    = Raise (AttributeError "handle_error") /\
  submitted (events (process (failing_client false)
                       [CallStrategy (Market "BTCUSDT" "BUY" (fz 2))] []
                       (cls_of (validate_input (failing_client false) "BTCUSDT"
                                  (fz 2) None [] fresh)))) = [].
Proof.
  split.
  - exact (proj1 (failed_fetch_never_retried (failing_client false) "BTCUSDT"
                    (fz 2) None [] unavailable eq_refl eq_refl)).
  - exact (proj2 (proj2 (proj2 (proj2
             (proj2 (proj2 (failed_fetch_never_retried (failing_client false) "BTCUSDT"
                              (fz 2) None [] unavailable eq_refl eq_refl))
                [CallStrategy (Market "BTCUSDT" "BUY" (fz 2))] []))))).
Defined.

(* ================================================================= *)
(** ** How the strategies end *)

Lemma contained_no_exit c {A} (m : M A) :
  (forall h s x, outc (m h s) <> Exit x) -> contained c m.
Proof. intros N h s x E. exfalso. exact (N h s x E). Qed.

Lemma contained_ret c {A} (a : A) : contained c (ret a).
Proof. apply contained_no_exit. discriminate. Qed.

Lemma contained_raise c {A} (e : exn) : contained c (@raise A e).
Proof. apply contained_no_exit. discriminate. Qed.

Lemma contained_log c l m : contained c (log l m).
Proof. apply contained_no_exit. discriminate. Qed.

Lemma contained_sleep c n : contained c (sleep n).
Proof. apply contained_no_exit. discriminate. Qed.

Lemma contained_handle_error c e : contained c (handle_error e).
Proof. destruct (handle_error_log e) as [m ->]. apply contained_log. Qed.

Lemma contained_call_futures_create_order c o :
  contained c (call_futures_create_order c o).
Proof.
  apply contained_no_exit. intros h s x. unfold call_futures_create_order.
  destruct (futures_create_order c h o); discriminate.
Qed.

Lemma contained_silent c {A} (m : M A) :
  silent m -> (forall x, eval m <> Exit x) -> contained c m.
Proof.
  intros H N. apply contained_no_exit. intros h s x. rewrite (H h s). exact (N x).
Qed.

Lemma contained_bind c {A B} (m : M A) (k : A -> M B) :
  thrifty m -> contained c m -> (forall a, contained c (k a)) ->
  contained c (bind m k).
Proof.
  intros T Hm Hk h s x. rewrite bind_run.
  destruct (outc (m h s)) as [a|e|x'] eqn:O.
  - cbv zeta. cbn [outc events fst snd]. intros E.
    destruct (Hk a _ _ _ E) as (X & R & I & e & F).
    split; [exact X|]. split; [exact R|]. split.
    + destruct (_instance s) eqn:I0; [|reflexivity].
      rewrite (proj2 (T h s) I0) in I. congruence.
    + exists e. apply in_app_iff. auto.
  - discriminate.
  - cbn [outc events fst snd]. intros [= <-]. exact (Hm h s x' O).
Qed.

Lemma contained_try_except c {A} (m : M A) (k : exn -> M A) :
  thrifty m -> contained c m -> (forall e, contained c (k e)) ->
  contained c (try_except m k).
Proof.
  intros T Hm Hk h s x. rewrite try_except_run.
  destruct (outc (m h s)) as [a|e|x'] eqn:O.
  - rewrite O. discriminate.
  - cbv zeta. cbn [outc events fst snd]. intros E.
    destruct (Hk e _ _ _ E) as (X & R & I & e' & F).
    split; [exact X|]. split; [exact R|]. split.
    + destruct (_instance s) eqn:I0; [|reflexivity].
      rewrite (proj2 (T h s) I0) in I. congruence.
    + exists e'. apply in_app_iff. auto.
  - intros E. exact (Hm h s x E).
Qed.

Lemma contained_validate_input c sym q p : contained c (validate_input c sym q p).
Proof.
  intros h s x. pose proof (validate_input_outcomes c sym q p h s) as X.
  cbv zeta in X. intros E. rewrite E in X. destruct X as (X1 & _ & R & I & F).
  split; [exact X1|]. split; [exact R|]. split; [exact I|].
  revert E F. rewrite validate_input_run.
  rewrite (ExchangeInfo_uninitialised c h s I).
  destruct (futures_exchange_info c h) as [e|i].
  - intros _ _. exists e. destruct (raw_has_handle_error c); simpl; auto.
  - cbv zeta. cbn [outc cls_of events fst snd].
    pose proof (validate_checks_outcomes
                  (get_symbol_info (ClsState true (Some i)) sym) sym q p) as V.
    destruct (eval (validate_checks (get_symbol_info (ClsState true (Some i)) sym)
                      sym q p)); try discriminate.
    destruct V.
Qed.

Ltac thrifty_all :=
  solve [ repeat first [ apply thrifty_twap_loop | apply thrifty_grid_loop
                       | thrifty_step ] ].

Ltac contained_step :=
  first
    [ apply contained_ret | apply contained_raise | apply contained_log
    | apply contained_sleep | apply contained_handle_error
    | apply contained_validate_input | apply contained_call_futures_create_order
    | apply contained_silent;
      [ first [ apply silent_grid_order_price | apply silent_grid_order_side
              | apply silent_grid_price_step | apply silent_twap_quantity_per_order
              | apply silent_int_floordiv ]
      | intros ?;
        first [ apply no_exit_grid_order_price | apply no_exit_grid_order_side
              | apply no_exit_grid_price_step | apply no_exit_twap_quantity_per_order
              | apply no_exit_int_floordiv ] ]
    | apply contained_bind; [thrifty_all | | intros ?]
    | apply contained_try_except; [thrifty_all | | intros ?]
    | match goal with
      | H : _ |- _ => apply H
      | |- contained _ (if ?b then _ else _) => destruct b
      | |- contained _ (match ?x with _ => _ end) => destruct x
      end ].

Lemma contained_twap_loop c sym side q n iv indices :
  contained c (twap_loop c sym side q n iv indices).
Proof.
  induction indices as [|i rest IH]; simpl; repeat contained_step.
Qed.

Lemma contained_grid_loop c sym lo hi st q levels :
  forall orders, contained c (grid_loop c sym lo hi st q levels orders).
Proof.
  induction levels as [|i rest IH]; intros orders; simpl; repeat contained_step.
Qed.

Lemma handler_returns {A} (v : A) e h s :
  outc ((handle_error e ;; ret v) h s) = Return v.
Proof.
  unfold bind. destruct (handle_error_run e h s) as [m ->]. reflexivity.
Qed.

(** A [try] whose handler returns ends as [handled] says, when what it
    runs is [contained]. *)
Lemma handled_try_except c {A} (m : M A) (v : A) h s :
  thrifty m -> contained c m ->
  handled c s (try_except m (fun e => handle_error e ;; ret v) h s).
Proof.
  intros T Hm. unfold handled.
  destruct (outc (try_except m (fun e => handle_error e ;; ret v) h s))
    as [a|e|x] eqn:O; [exact I| |].
  - rewrite try_except_run in O. destruct (outc (m h s)) eqn:Om.
    + rewrite Om in O. discriminate.
    + cbv zeta in O. cbn [outc fst] in O. rewrite handler_returns in O. discriminate.
    + rewrite Om in O. discriminate.
  - refine (contained_try_except c m _ T Hm _ h s x O).
    intros e. repeat contained_step.
Qed.

(** X10: the strategies of the sources handle every exception: a call of
    [place_market_order], [place_stop_limit_order], [place_oco_order],
    [place_twap_order] or [place_grid_orders] never raises; it returns,
    or it exits, with code 1, and then the exchange information was not
    cached before, its fetch failed during the call, and the raw client
    has [handle_error]. *)
Theorem strategies_handle_exceptions c h s :
  (forall sym side q, handled c s (place_market_order c sym side q h s)) /\
  (forall sym side q sp lp, handled c s (place_stop_limit_order c sym side q sp lp h s)) /\
  (forall sym side q tp sl, handled c s (place_oco_order c sym side q tp sl h s)) /\
  (forall sym side q d iv, handled c s (place_twap_order c sym side q d iv h s)) /\
  (forall sym lo hi n q, handled c s (place_grid_orders c sym lo hi n q h s)).
Proof.
  repeat split; intros;
    unfold place_market_order, place_stop_limit_order, place_oco_order,
      oco_validation_failed, place_twap_order, place_grid_orders;
    apply handled_try_except;
    first [ thrifty_all
          | repeat first [ apply contained_twap_loop | apply contained_grid_loop
                         | contained_step ] ].
Qed.

Lemma validate_input_failed_fetch c sym q p h s e :
  raw_has_handle_error c = true -> _instance s = false ->
  futures_exchange_info c h = inl e ->
  validate_input c sym q p h s
    = (Exit 1, ClsState true (_info s), [EFetch (inl e); EValidate sym q p None]).
Proof.
  intros R I F. rewrite validate_input_run, (ExchangeInfo_uninitialised c h s I), F, R.
  reflexivity.
Qed.

(** X11: a fetch that fails on a raw client with [handle_error] ends the
    process: [validate_input] exits with code 1, the exit passes through
    the [except Exception] of the strategy that called it, no order
    reaches the gateway, and the calls that would follow are not made. *)
Theorem failed_fetch_exits c sym q p h s e :
  raw_has_handle_error c = true -> _instance s = false ->
  futures_exchange_info c h = inl e ->
  outc (validate_input c sym q p h s) = Exit 1 /\
  (forall side,
     outc (place_market_order c sym side q h s) = Exit 1 /\
     submitted (events (place_market_order c sym side q h s)) = []) /\
  (forall side sp lp,
     outc (place_stop_limit_order c sym side q sp lp h s) = Exit 1 /\
     submitted (events (place_stop_limit_order c sym side q sp lp h s)) = []) /\
  (forall side tp sl,
     outc (place_oco_order c sym side q tp sl h s) = Exit 1 /\
     submitted (events (place_oco_order c sym side q tp sl h s)) = []) /\
  (forall side calls,
     outc (process c (CallStrategy (Market sym side q) :: calls) h s) = Exit 1 /\
     events (process c (CallStrategy (Market sym side q) :: calls) h s)
       = [EFetch (inl e); EValidate sym q None None]).
Proof.
  intros R I F.
  pose proof (fun p => validate_input_failed_fetch c sym q p h s e R I F) as V.
  split; [rewrite V; reflexivity|].
  split; [|split; [|split]]; intros;
    unfold process, run_call, invoke, place_market_order, place_stop_limit_order,
      place_oco_order, oco_validation_failed, try_except, bind;
    rewrite V; split; reflexivity.
Qed.

Lemma failed_fetch_exits_witness :
  outc (place_market_order (failing_client true) "BTCUSDT" "BUY" (fz 2) [] fresh)
    = Exit 1 /\
  submitted (events (place_market_order (failing_client true) "BTCUSDT" "BUY" (fz 2)
                       [] fresh)) = [].
Proof.
  exact (proj1 (proj2 (failed_fetch_exits (failing_client true) "BTCUSDT" (fz 2) None
                         [] fresh unavailable eq_refl eq_refl eq_refl)) "BUY").
Defined.

Opaque validate_input grid_order_price grid_order_side grid_price_step
  twap_quantity_per_order int_floordiv.

Lemma market_result c sym side q h s :
  let r := place_market_order c sym side q h s in
  let o := Order sym side FUTURE_ORDER_TYPE_MARKET q None None None in
  (submitted (events r) = [] \/ exists x, submitted (events r) = [(o, x)]) /\
  (forall resp, outc r = Return (Some resp) <-> submitted (events r) = [(o, inr resp)]).
Proof.
  unfold place_market_order, try_except, bind.
  run_next_validate.
  destruct o as [[|]|e|x]; run_strategy; read_trace;
    (split; [eauto|]); intros resp;
    (split; [intros [=]; subst; reflexivity | intros [=]; subst; reflexivity]).
Qed.

Lemma stop_limit_result c sym side q sp lp h s :
  let r := place_stop_limit_order c sym side q sp lp h s in
  let o := Order sym side FUTURE_ORDER_TYPE_STOP q (Some lp) (Some sp) (Some "GTC") in
  (submitted (events r) = [] \/ exists x, submitted (events r) = [(o, x)]) /\
  (forall resp, outc r = Return (Some resp) <-> submitted (events r) = [(o, inr resp)]).
Proof.
  unfold place_stop_limit_order, try_except, bind.
  run_next_validate.
  destruct o as [[|]|e|x]; run_strategy; read_trace;
    (split; [eauto|]); intros resp;
    (split; [intros [=]; subst; reflexivity | intros [=]; subst; reflexivity]).
Qed.
Transparent validate_input grid_order_price grid_order_side grid_price_step
  twap_quantity_per_order int_floordiv.

(** X12: a market order and a stop-limit order call the gateway at most
    once, with the order built from the arguments, and the call returns
    the exchange's response exactly when that gateway call succeeded; in
    every other case it does not return a response. *)
Theorem single_order_result c sym side q sp lp h s :
  let m := place_market_order c sym side q h s in
  let l := place_stop_limit_order c sym side q sp lp h s in
  let om := Order sym side "MARKET" q None None None in
  let ol := Order sym side "STOP" q (Some lp) (Some sp) (Some "GTC") in
  ((submitted (events m) = [] \/ exists x, submitted (events m) = [(om, x)]) /\
   (forall resp,
      outc m = Return (Some resp) <-> submitted (events m) = [(om, inr resp)])) /\
  ((submitted (events l) = [] \/ exists x, submitted (events l) = [(ol, x)]) /\
   (forall resp,
      outc l = Return (Some resp) <-> submitted (events l) = [(ol, inr resp)])).
Proof.
  split; [apply market_result | apply stop_limit_result].
Qed.
